(** * Threshold Ed25519 cosigner: a shallow embedding of
      [signer/threshold_ed25519_signature.go] and the properties of its
      signing state machine.

    The file has three layers.
    - The Go data the engine manipulates (byte slices, [int64] arithmetic,
      [time.Time], the structs, the [hrsMeta] map and the backing arrays
      of the [Peers] slices).
    - The engine itself ([dealShares], [getEphemeralSecretPart],
      [setEphemeralSecretPart], [sign]) written in a state-and-error monad,
      parametric in the code it calls but does not contain: the
      cryptographic libraries ([Primitives]) and the rest of the package
      ([SignerPackage]).
    - The sign-state operations as the specification describes them
      ([SpecSignState]) and small executable instances used to run the
      engine on concrete inputs. *)

From Stdlib Require Import ZArith Strings.Byte.
From stdpp Require Import base option list gmap strings.

Local Open Scope Z_scope.

(** ** Bytes, machine integers, time *)

Definition bytes := list byte.

#[global] Instance byte_eq_decision : EqDecision byte := byte_eq_dec.

(** [bytes.Equal]: same length and same contents; a nil slice and an empty
    slice are equal, as both are the empty list here. *)
Definition bytes_Equal (a b : bytes) : bool := bool_decide (a = b).

(** Two's complement wrap-around of [int64] arithmetic. *)
Definition wrap64 (z : Z) : Z := (z + 2 ^ 63) mod 2 ^ 64 - 2 ^ 63.
Definition add64 (a b : Z) : Z := wrap64 (a + b).
Definition sub64 (a b : Z) : Z := wrap64 (a - b).
Definition mul64 (a b : Z) : Z := wrap64 (a * b).

(** [time.Time], reduced to what [UnixNano] reads: the seconds elapsed
    since January 1 of year 1 (what [t.sec()] returns) and the nanoseconds
    within the second.  The zero value of the struct is that very
    instant. *)
Record Time := mkTime { t_sec : Z; t_nsec : Z }.

Definition zeroTime : Time := mkTime 0 0.

(** The [time] package's constant [internalToUnix]: minus the number of
    seconds between year 1 and 1970. *)
Definition internalToUnix : Z :=
  - ((1969 * 365 + 1969 / 4 - 1969 / 100 + 1969 / 400) * 86400).

(** [func (t Time) UnixNano() int64]:
    [(t.sec() + internalToUnix) * 1e9 + int64(t.nsec())] in [int64]. *)
Definition UnixNano (t : Time) : Z :=
  add64 (mul64 (add64 (t_sec t) internalToUnix) 1000000000) (t_nsec t).

(** A [time.Time] for a given Unix time, as [time.Unix(sec, nsec)] builds
    it. *)
Definition Unix (sec nsec : Z) : Time := mkTime (sec - internalToUnix) nsec.

(** ** Errors and outcomes *)

Inductive error : Type :=
  | RegressionError                    (* sign state: HRS went backwards *)
  | ConflictingDataError               (* sign state: same HRS, other data *)
  | SameHRSError                       (* sign state: the SameHRSError type *)
  | ErrorsNew (msg : string)           (* [errors.New(msg)] *)
  | UnknownCosigner (id : Z)           (* [fmt.Errorf("unknown cosigner: %d", id)] *)
  | LibError (origin : string).        (* an error value of a library call *)

#[global] Instance error_eq_decision : EqDecision error.
Proof. solve_decision. Defined.

Definition NoMetadataForHRS : error := ErrorsNew "no metadata at HRS".
Definition EphemeralShareOutOfBounds : error :=
  ErrorsNew "ephemeral share is out of bounds".
Definition UnknownPeer : error := ErrorsNew "unknown peer ID".
Definition MissingSignature : error := ErrorsNew "SourceSig field is required".

(** The type assertion of [err] to a pointer to [SameHRSError]. *)
Definition isSameHRSError (e : error) : bool :=
  match e with SameHRSError => true | _ => false end.

(** What a call yields: a value, a returned [error], or a run-time panic
    (an index out of range).  On an error return the Go functions also
    hand back a result value that callers ignore; it is not modelled. *)
Inductive outcome (A : Type) : Type :=
  | Ok (a : A)
  | Err (e : error)
  | Panic (msg : string).
Arguments Ok {A} a.
Arguments Err {A} e.
Arguments Panic {A} msg.

(** ** The structs

    The structs are declared in other files of the package.  Their fields
    are the ones this file reads and writes; the types of the fields are
    those the operations applied to them require ([UnixNano] on a
    timestamp, [len] on a share, an [int] key into [peers]). *)

Record HRSTKey := mkHRSTKey {
  hrst_Height : Z;
  hrst_Round : Z;
  hrst_Step : Z;
  hrst_Timestamp : Z
}.

#[global] Instance HRSTKey_eq_decision : EqDecision HRSTKey.
Proof. solve_decision. Defined.

#[global] Instance HRSTKey_countable : Countable HRSTKey.
Proof.
  refine (inj_countable'
    (fun k => (hrst_Height k, hrst_Round k, hrst_Step k, hrst_Timestamp k))
    (fun t => match t with (h, r, s, ts) => mkHRSTKey h r s ts end) _).
  intros []; reflexivity.
Defined.

(** The in-memory [SignState] object behind [cosigner.lastSignState], which
    is also the content of the sign-state file. *)
Record SignState := mkSignState {
  ss_Height : Z;
  ss_Round : Z;
  ss_Step : Z;
  ss_EphemeralPublic : bytes;
  ss_Signature : bytes;
  ss_SignBytes : bytes
}.

(** The argument of [Save]. *)
Record SignStateConsensus := mkSignStateConsensus {
  ssc_Height : Z;
  ssc_Round : Z;
  ssc_Step : Z;
  ssc_Signature : bytes;
  ssc_SignBytes : bytes
}.

Record PeerMetadata := mkPeerMetadata {
  Share : bytes;
  EphemeralSecretPublicKey : bytes
}.

(** [Peers] is a Go slice: the struct holds a reference to a backing
    array, and copies of the struct (the map entry, the local [meta], the
    value [dealShares] returns) share it.  The reference is an index into
    the store [peerArrays] of the world.  [Secret] and [DealtShares] are
    never written after they are built and are kept by value. *)
Record HrsMetadata := mkHrsMetadata {
  Secret : bytes;
  DealtShares : list bytes;
  Peers : nat
}.

Record CosignerKey := mkCosignerKey {
  key_ID : Z;
  key_ShareKey : bytes
}.

(** [rsa.PublicKey] and [rsa.PrivateKey]. *)
Record RSAPublicKey := mkRSAPublicKey { rsa_N : Z; rsa_E : Z }.
Record RSAPrivateKey := mkRSAPrivateKey { rsa_Public : RSAPublicKey; rsa_D : Z }.

Record CosignerPeer := mkCosignerPeer {
  peer_ID : Z;
  peer_PublicKey : RSAPublicKey
}.

Record CosignerSignRequest := mkCosignerSignRequest {
  SignBytes : bytes
}.

Record CosignerSignResponse := mkCosignerSignResponse {
  res_EphemeralPublic : bytes;
  res_Signature : bytes
}.

Record CosignerGetEphemeralSecretPartRequest := mkGetRequest {
  get_ID : Z;
  get_Height : Z;
  get_Round : Z;
  get_Step : Z;
  get_Timestamp : Time
}.

(** A nil [SourceSig] is [None]. *)
Record CosignerEphemeralSecretPart := mkSecretPart {
  SourceID : Z;
  SourceEphemeralSecretPublicKey : bytes;
  EncryptedSharePart : bytes;
  SourceSig : option bytes;
  DestinationID : Z
}.

Record CosignerSetEphemeralSecretPartRequest := mkSetRequest {
  set_SourceID : Z;
  set_SourceEphemeralSecretPublicKey : bytes;
  set_EncryptedSharePart : bytes;
  set_SourceSig : option bytes;
  set_Height : Z;
  set_Round : Z;
  set_Step : Z;
  set_Timestamp : Time
}.

(** The arguments of one call of [tsed25519.SignWithShare]. *)
Record SignWithShareCall := mkSignWithShareCall {
  call_message : bytes;
  call_signingShare : bytes;
  call_ephemeralShare : bytes;
  call_groupPubKey : bytes;
  call_ephemeralPublic : bytes
}.

(** ** The world the engine runs in

    The fields of [LocalSoftSignThresholdEd25519Signature] together with
    what its methods reach through references or through the operating
    system: the backing arrays of the [Peers] slices, the sign-state file,
    the entropy [crypto/rand] still has to give (a finite tape: reading
    past its end is the error [rand.Read] can return), and a log of the
    calls made to the signing primitive. *)
Record World := mkWorld {
  pubKeyBytes : bytes;
  key : CosignerKey;
  rsaKey : RSAPrivateKey;
  total : Z;
  threshold : Z;
  lastSignState : SignState;
  hrsMeta : gmap HRSTKey HrsMetadata;
  peers : gmap Z CosignerPeer;
  peerArrays : list (list PeerMetadata);
  stateFile : SignState;
  entropy : bytes;
  signCalls : list SignWithShareCall
}.

Definition set_lastSignState (s : SignState) (w : World) : World :=
  mkWorld (pubKeyBytes w) (key w) (rsaKey w) (total w) (threshold w) s
    (hrsMeta w) (peers w) (peerArrays w) (stateFile w) (entropy w) (signCalls w).
Definition set_hrsMeta (m : gmap HRSTKey HrsMetadata) (w : World) : World :=
  mkWorld (pubKeyBytes w) (key w) (rsaKey w) (total w) (threshold w)
    (lastSignState w) m (peers w) (peerArrays w) (stateFile w) (entropy w)
    (signCalls w).
Definition set_peerArrays (h : list (list PeerMetadata)) (w : World) : World :=
  mkWorld (pubKeyBytes w) (key w) (rsaKey w) (total w) (threshold w)
    (lastSignState w) (hrsMeta w) (peers w) h (stateFile w) (entropy w)
    (signCalls w).
Definition set_stateFile (f : SignState) (w : World) : World :=
  mkWorld (pubKeyBytes w) (key w) (rsaKey w) (total w) (threshold w)
    (lastSignState w) (hrsMeta w) (peers w) (peerArrays w) f (entropy w)
    (signCalls w).
Definition set_entropy (t : bytes) (w : World) : World :=
  mkWorld (pubKeyBytes w) (key w) (rsaKey w) (total w) (threshold w)
    (lastSignState w) (hrsMeta w) (peers w) (peerArrays w) (stateFile w) t
    (signCalls w).
Definition set_signCalls (l : list SignWithShareCall) (w : World) : World :=
  mkWorld (pubKeyBytes w) (key w) (rsaKey w) (total w) (threshold w)
    (lastSignState w) (hrsMeta w) (peers w) (peerArrays w) (stateFile w)
    (entropy w) l.

Definition set_threshold (t : Z) (w : World) : World :=
  mkWorld (pubKeyBytes w) (key w) (rsaKey w) (total w) t (lastSignState w)
    (hrsMeta w) (peers w) (peerArrays w) (stateFile w) (entropy w) (signCalls w).

(** ** The monad: state passing with Go's error returns *)

Definition M (A : Type) : Type := World -> outcome A * World.

Definition ret {A} (a : A) : M A := fun w => (Ok a, w).
Definition fail {A} (e : error) : M A := fun w => (Err e, w).
Definition panic {A} (msg : string) : M A := fun w => (Panic msg, w).
Definition bind {A B} (m : M A) (k : A -> M B) : M B :=
  fun w =>
    match m w with
    | (Ok a, w') => k a w'
    | (Err e, w') => (Err e, w')
    | (Panic msg, w') => (Panic msg, w')
    end.
Definition gets {A} (f : World -> A) : M A := fun w => (Ok (f w), w).
Definition modify (f : World -> World) : M unit := fun w => (Ok tt, f w).

(** [v, err := f(..); if err != nil { return .., err }]. *)
Definition orReturn {A} (r : error + A) : M A :=
  match r with inl e => fail e | inr a => ret a end.
(** [if err := f(..); err != nil { return .., err }]. *)
Definition returnIf (r : option error) : M unit :=
  match r with Some e => fail e | None => ret tt end.

#[global] Instance M_ret : MRet M := @ret.
#[global] Instance M_bind : MBind M := fun A B k m => bind m k.

(** A computation that leaves the [hrsMeta] map as it finds it, whatever
    it returns. *)
Definition keepsMeta {A} (m : M A) : Prop :=
  forall w, hrsMeta (m w).2 = hrsMeta w.

(** ** The code the engine calls but does not contain *)

(** The libraries: [tsed25519] (threshold-ed25519), [edwards25519],
    [crypto/rsa], [crypto/sha256] and tendermint's JSON.  The randomised
    ones take the entropy tape and return what is left of it. *)
Class Primitives := {
  AddScalars : list bytes -> bytes;
  AddElements : list bytes -> bytes;
  ScalarMultiplyBase : bytes -> bytes;
  DealShares : bytes -> bytes -> Z -> Z -> list bytes * bytes;
  SignWithShare : bytes -> bytes -> bytes -> bytes -> bytes -> bytes;
  ScMinimal : bytes -> bool;
  EncryptOAEP : bytes -> RSAPublicKey -> bytes -> (error + bytes) * bytes;
  DecryptOAEP : bytes -> RSAPrivateKey -> bytes -> (error + bytes) * bytes;
  SignPSS : bytes -> RSAPrivateKey -> bytes -> (error + bytes) * bytes;
  VerifyPSS : RSAPublicKey -> bytes -> bytes -> option error;
  Sum256 : bytes -> bytes;
  Marshal : CosignerEphemeralSecretPart -> error + bytes
}.

(** The rest of package [signer]: the decoder of sign bytes, the methods
    of [SignState] and the order on [HRSTKey].  [Save] takes the in-memory
    object and the file and returns both as it leaves them. *)
Class SignerPackage := {
  UnpackHRST : bytes -> error + HRSTKey;
  CheckHRS : SignState -> HRSTKey -> error + bool;
  OnlyDifferByTimestamp : SignState -> bytes -> option error;
  Save : SignState -> SignState -> SignStateConsensus ->
         SignState * SignState * option error;
  Less : HRSTKey -> HRSTKey -> bool
}.

(** ** Helpers for Go's slices, maps and [crypto/rand] *)

(** [l[i]] for an [int] index: a panic outside [0 <= i < len(l)]. *)
Definition index {A} (l : list A) (i : Z) : M A :=
  if bool_decide (0 <= i) then
    match l !! Z.to_nat i with
    | Some a => ret a
    | None => panic "index out of range"
    end
  else panic "index out of range".

(** The backing array a [Peers] reference points to. *)
Definition peersOf (meta : HrsMetadata) : M (list PeerMetadata) :=
  h ← gets peerArrays;
  match h !! Peers meta with
  | Some arr => ret arr
  | None => panic "invalid memory address"
  end.

(** [make([]PeerMetadata, n)]: a fresh backing array of [n] zero structs. *)
Definition makePeers (n : Z) : M nat :=
  h ← gets peerArrays;
  modify (set_peerArrays (h ++ [replicate (Z.to_nat n) (mkPeerMetadata [] [])]));;
  ret (length h).

(** [meta.Peers[i].Share = share] and
    [meta.Peers[i].EphemeralSecretPublicKey = pub], one after the other:
    both write through the reference, so every copy of the struct sees
    them. *)
Definition setPeerSlot (meta : HrsMetadata) (i : Z) (share pub : bytes) : M unit :=
  arr ← peersOf meta;
  _ ← index arr i;
  modify (fun w =>
    set_peerArrays
      (<[Peers meta := <[Z.to_nat i := mkPeerMetadata share pub]> arr]> (peerArrays w)) w).

(** [secret := make([]byte, n); rand.Read(secret)]. *)
Definition rand_Read (n : nat) : M bytes :=
  t ← gets entropy;
  if bool_decide (n <= length t)%nat then
    modify (set_entropy (drop n t));; ret (take n t)
  else fail (LibError "crypto/rand").

(** Run a randomised library function on the entropy tape. *)
Definition withEntropy {A} (f : bytes -> A * bytes) : M A :=
  t ← gets entropy;
  modify (set_entropy (f t).2);; ret (f t).1.

(** [var a [32]byte; copy(a[:], b)]. *)
Definition copy32 (b : bytes) : bytes := take 32 (b ++ replicate 32 x00).

(** The loop over [meta.Peers] in [sign]: the shares and public keys of
    the slots whose share is not empty, in slot order. *)
Fixpoint collectParts (ps : list PeerMetadata) (shareParts publicKeys : list bytes)
  : list bytes * list bytes :=
  match ps with
  | [] => (shareParts, publicKeys)
  | peer :: rest =>
      if (length (Share peer) =? 0)%nat then collectParts rest shareParts publicKeys
      else collectParts rest (shareParts ++ [Share peer])
                             (publicKeys ++ [EphemeralSecretPublicKey peer])
  end.

(** ** The engine: [LocalSoftSignThresholdEd25519Signature] *)

Section Engine.
Context {prim : Primitives} {pkg : SignerPackage}.

(** The loop [for existingKey := range cosigner.hrsMeta] that deletes the
    keys below [hrst]. *)
Definition deleteLower (hrst : HRSTKey) (m : gmap HRSTKey HrsMetadata)
  : gmap HRSTKey HrsMetadata :=
  foldr (fun existingKey acc =>
           if Less existingKey hrst then delete existingKey acc else acc)
        m (map_to_list m).*1.

Definition hrstOfGet (req : CosignerGetEphemeralSecretPartRequest) : HRSTKey :=
  mkHRSTKey (get_Height req) (get_Round req) (get_Step req)
            (UnixNano (get_Timestamp req)).

Definition hrstOfSet (req : CosignerSetEphemeralSecretPartRequest) : HRSTKey :=
  mkHRSTKey (set_Height req) (set_Round req) (set_Step req)
            (UnixNano (set_Timestamp req)).

Definition dealShares (req : CosignerGetEphemeralSecretPartRequest) : M HrsMetadata :=
  let hrsKey := hrstOfGet req in
  m ← gets hrsMeta;
  match m !! hrsKey with
  | Some meta => ret meta
  | None =>
      secret ← rand_Read 32;
      n ← gets total;
      ps ← makePeers n;
      t ← gets threshold;
      shares ← withEntropy (fun tape => DealShares tape secret t n);
      let meta := mkHrsMetadata secret shares ps in
      modify (fun w => set_hrsMeta (<[hrsKey := meta]> (hrsMeta w)) w);;
      ret meta
  end.

(** The "look up, or deal and insert" block shared by the two share
    operations; [dealReq] is the request handed to [dealShares]. *)
Definition lookupOrDeal (hrst : HRSTKey)
    (dealReq : CosignerGetEphemeralSecretPartRequest) : M HrsMetadata :=
  m ← gets hrsMeta;
  match m !! hrst with
  | Some meta => ret meta
  | None =>
      newMeta ← dealShares dealReq;
      modify (fun w => set_hrsMeta (<[hrst := newMeta]> (hrsMeta w)) w);;
      ret newMeta
  end.

(** The body of [getEphemeralSecretPart] once the metadata is at hand:
    our own slot is filled, then the share of the requesting peer is
    encrypted and the envelope signed. *)
Definition answerWithPart (req : CosignerGetEphemeralSecretPartRequest)
    (meta : HrsMetadata) : M CosignerEphemeralSecretPart :=
  let ourEphPublicKey := ScalarMultiplyBase (Secret meta) in
  k ← gets key;
  ourShare ← index (DealtShares meta) (sub64 (key_ID k) 1);
  setPeerSlot meta (sub64 (key_ID k) 1) ourShare ourEphPublicKey;;
  ps ← gets peers;
  match ps !! get_ID req with
  | None => fail UnknownPeer
  | Some peer =>
      sharePart ← index (DealtShares meta) (sub64 (get_ID req) 1);
      r ← withEntropy (fun tape => EncryptOAEP tape (peer_PublicKey peer) sharePart);
      encrypted ← orReturn r;
      let res := mkSecretPart (key_ID k) ourEphPublicKey encrypted None 0 in
      jsonBytes ← orReturn (Marshal res);
      let digest := Sum256 jsonBytes in
      priv ← gets rsaKey;
      r ← withEntropy (fun tape => SignPSS tape priv digest);
      signature ← orReturn r;
      ret (mkSecretPart (key_ID k) ourEphPublicKey encrypted (Some signature)
                        (get_ID req))
  end.

Definition getEphemeralSecretPart (req : CosignerGetEphemeralSecretPartRequest)
  : M CosignerEphemeralSecretPart :=
  let hrst := hrstOfGet req in
  meta ← lookupOrDeal hrst
           (mkGetRequest 0 (get_Height req) (get_Round req) (get_Step req)
                         (get_Timestamp req));
  answerWithPart req meta.

(** The envelope [setEphemeralSecretPart] rebuilds to check the source
    signature: the three signed fields, the others at their zero value. *)
Definition digestMsgOf (req : CosignerSetEphemeralSecretPartRequest)
  : CosignerEphemeralSecretPart :=
  mkSecretPart (set_SourceID req) (set_SourceEphemeralSecretPublicKey req)
               (set_EncryptedSharePart req) None 0.

(** The first block of [setEphemeralSecretPart]: the check of the source
    signature.  It reads the configuration only. *)
Definition verifySource (req : CosignerSetEphemeralSecretPartRequest) : M unit :=
  match set_SourceSig req with
  | None => fail MissingSignature
  | Some sourceSig =>
      digestBytes ← orReturn (Marshal (digestMsgOf req));
      let digest := Sum256 digestBytes in
      ps ← gets peers;
      match ps !! set_SourceID req with
      | None => fail (UnknownCosigner (set_SourceID req))
      | Some peer => returnIf (VerifyPSS (peer_PublicKey peer) digest sourceSig)
      end
  end.

(** The last block of [setEphemeralSecretPart]: the share is decrypted and
    written, with the public key, into the slot of the source. *)
Definition storeSharePart (req : CosignerSetEphemeralSecretPartRequest)
    (meta : HrsMetadata) : M unit :=
  priv ← gets rsaKey;
  r ← withEntropy (fun tape => DecryptOAEP tape priv (set_EncryptedSharePart req));
  sharePart ← orReturn r;
  setPeerSlot meta (sub64 (set_SourceID req) 1) sharePart
              (set_SourceEphemeralSecretPublicKey req).

(** The request [setEphemeralSecretPart] hands to [dealShares]: the
    composite literal names [Height], [Round] and [Step] only, so [ID] and
    [Timestamp] are the zero values of their types. *)
Definition dealRequestOfSet (req : CosignerSetEphemeralSecretPartRequest)
  : CosignerGetEphemeralSecretPartRequest :=
  mkGetRequest 0 (set_Height req) (set_Round req) (set_Step req) zeroTime.

Definition setEphemeralSecretPart (req : CosignerSetEphemeralSecretPartRequest)
  : M unit :=
  verifySource req;;
  let hrst := hrstOfSet req in
  meta ← lookupOrDeal hrst (dealRequestOfSet req);
  storeSharePart req meta.

(** The source signature of [req] is present and verifies, under the
    configured public key of the claimed source, over the hash of the
    serialised signed fields. *)
Definition sourceVerified (req : CosignerSetEphemeralSecretPartRequest) (w : World)
  : Prop :=
  exists sourceSig digestBytes peer,
    set_SourceSig req = Some sourceSig /\
    Marshal (digestMsgOf req) = inr digestBytes /\
    peers w !! set_SourceID req = Some peer /\
    VerifyPSS (peer_PublicKey peer) (Sum256 digestBytes) sourceSig = None.

(** [cosigner.lastSignState.EphemeralPublic = ephemeralPublic]. *)
Definition setEphemeralPublic (ephemeralPublic : bytes) (s : SignState) : SignState :=
  mkSignState (ss_Height s) (ss_Round s) (ss_Step s) ephemeralPublic
              (ss_Signature s) (ss_SignBytes s).

(** [err = cosigner.lastSignState.Save(ssc, nil)]. *)
Definition callSave (ssc : SignStateConsensus) : M (option error) :=
  fun w =>
    match Save (lastSignState w) (stateFile w) ssc with
    | (s', f', err) => (Ok err, set_stateFile f' (set_lastSignState s' w))
    end.

(** [sig := tsed25519.SignWithShare(..)], with the call recorded. *)
Definition callSignWithShare (message signingShare ephemeralShare groupPubKey
                              ephemeralPublic : bytes) : M bytes :=
  modify (fun w =>
    set_signCalls
      (signCalls w ++ [mkSignWithShareCall message signingShare ephemeralShare
                                           groupPubKey ephemeralPublic]) w);;
  ret (SignWithShare message signingShare ephemeralShare groupPubKey ephemeralPublic).

(** The part of [sign] before the metadata lookup: [Some res] is the early
    return of the persisted signature, [None] falls through. *)
Definition checkSameHRS (req : CosignerSignRequest) (lss : SignState) (sameHRS : bool)
  : M (option CosignerSignResponse) :=
  if sameHRS then
    if bytes_Equal (SignBytes req) (ss_SignBytes lss) then
      ret (Some (mkCosignerSignResponse (ss_EphemeralPublic lss) (ss_Signature lss)))
    else
      returnIf (OnlyDifferByTimestamp lss (SignBytes req));; ret None
  else ret None.

(** The part of [sign] from the metadata lookup on. *)
Definition signFresh (req : CosignerSignRequest) (hrst : HRSTKey)
  : M CosignerSignResponse :=
  m ← gets hrsMeta;
  match m !! hrst with
  | None => fail NoMetadataForHRS
  | Some meta =>
      arr ← peersOf meta;
      let '(shareParts, publicKeys) := collectParts arr [] [] in
      let ephemeralShare := AddScalars shareParts in
      let ephemeralPublic := AddElements publicKeys in
      if negb (length ephemeralShare =? 32)%nat then fail EphemeralShareOutOfBounds
      else if negb (ScMinimal (copy32 ephemeralShare)) then
        fail EphemeralShareOutOfBounds
      else
        k ← gets key;
        pub ← gets pubKeyBytes;
        sig ← callSignWithShare (SignBytes req) (key_ShareKey k) ephemeralShare pub
                                ephemeralPublic;
        modify (fun w =>
          set_lastSignState (setEphemeralPublic ephemeralPublic (lastSignState w)) w);;
        err ← callSave (mkSignStateConsensus (hrst_Height hrst) (hrst_Round hrst)
                                             (hrst_Step hrst) sig (SignBytes req));
        match err with
        | Some e => if isSameHRSError e then ret tt else fail e
        | None => ret tt
        end;;
        modify (fun w => set_hrsMeta (deleteLower hrst (hrsMeta w)) w);;
        ret (mkCosignerSignResponse ephemeralPublic sig)
  end.

Definition sign (req : CosignerSignRequest) : M CosignerSignResponse :=
  lss ← gets lastSignState;
  hrst ← orReturn (UnpackHRST (SignBytes req));
  sameHRS ← orReturn (CheckHRS lss hrst);
  early ← checkSameHRS req lss sameHRS;
  match early with
  | Some res => ret res
  | None => signFresh req hrst
  end.


(** *** The paths through [sign], as predicates on the call *)

(** The aggregates [sign] computes from a backing array of peer slots. *)
Definition ephemeralShareOf (arr : list PeerMetadata) : bytes :=
  AddScalars (collectParts arr [] []).1.
Definition ephemeralPublicOf (arr : list PeerMetadata) : bytes :=
  AddElements (collectParts arr [] []).2.

(** The call gets past the checks of the HRS: the sign bytes unpack to
    [hrst], [CheckHRS] accepts it, and on the recorded HRS the sign bytes
    are not the recorded ones and [OnlyDifferByTimestamp] accepts them. *)
Definition passesHRS (req : CosignerSignRequest) (w : World) (hrst : HRSTKey) : Prop :=
  UnpackHRST (SignBytes req) = inr hrst /\
  exists sameHRS, CheckHRS (lastSignState w) hrst = inr sameHRS /\
    (sameHRS = true ->
       SignBytes req <> ss_SignBytes (lastSignState w) /\
       OnlyDifferByTimestamp (lastSignState w) (SignBytes req) = None).

(** The call is a replay of the recorded sign bytes at the recorded HRS. *)
Definition isReplay (req : CosignerSignRequest) (w : World) (hrst : HRSTKey) : Prop :=
  CheckHRS (lastSignState w) hrst = inr true /\
  SignBytes req = ss_SignBytes (lastSignState w).

(** [hrsMeta] has metadata for [hrst], whose peer slots are [arr]. *)
Definition hasShares (w : World) (hrst : HRSTKey) (arr : list PeerMetadata) : Prop :=
  exists meta, hrsMeta w !! hrst = Some meta /\ peerArrays w !! Peers meta = Some arr.

(** The signature, the record handed to [Save] and the logged call when
    [sign] signs afresh from the peer slots [arr]. *)
Definition signatureOf (req : CosignerSignRequest) (w : World)
    (arr : list PeerMetadata) : bytes :=
  SignWithShare (SignBytes req) (key_ShareKey (key w)) (ephemeralShareOf arr)
                (pubKeyBytes w) (ephemeralPublicOf arr).
Definition recordOf (req : CosignerSignRequest) (hrst : HRSTKey) (w : World)
    (arr : list PeerMetadata) : SignStateConsensus :=
  mkSignStateConsensus (hrst_Height hrst) (hrst_Round hrst) (hrst_Step hrst)
                       (signatureOf req w arr) (SignBytes req).
Definition callOf (req : CosignerSignRequest) (w : World)
    (arr : list PeerMetadata) : SignWithShareCall :=
  mkSignWithShareCall (SignBytes req) (key_ShareKey (key w)) (ephemeralShareOf arr)
                      (pubKeyBytes w) (ephemeralPublicOf arr).

(** The number of slots that hold a share. *)
Definition populated (arr : list PeerMetadata) : nat :=
  length (filter (fun p => length (Share p) <> 0%nat) arr).

End Engine.

(** ** The interface and its three implementations

    [ThresholdEd25519Signature] has four methods.  The unimplemented
    signer returns an error from each, the HSM signer panics in each, and
    the local soft signer is the engine above. *)
Class ThresholdEd25519Signature (S : Type) := {
  impl_dealShares :
    CosignerGetEphemeralSecretPartRequest -> S -> outcome HrsMetadata * S;
  impl_getEphemeralSecretPart :
    CosignerGetEphemeralSecretPartRequest -> S -> outcome CosignerEphemeralSecretPart * S;
  impl_setEphemeralSecretPart :
    CosignerSetEphemeralSecretPartRequest -> S -> outcome unit * S;
  impl_sign : CosignerSignRequest -> S -> outcome CosignerSignResponse * S
}.

Inductive UnimplementedThresholdEd25519Signature : Type := mkUnimplemented.
Inductive LocalHSMsignThresholdEd25519Signature : Type := mkLocalHSM.

#[global] Instance Unimplemented_impl :
  ThresholdEd25519Signature UnimplementedThresholdEd25519Signature := {|
  impl_dealShares _ s := (Err (ErrorsNew "method dealShares not implemented"), s);
  impl_getEphemeralSecretPart _ s := (Err (ErrorsNew "method getEphemeralSecretPart"), s);
  impl_setEphemeralSecretPart _ s :=
    (Err (ErrorsNew "method setEphemeralSecretPart not implemented"), s);
  impl_sign _ s := (Err (ErrorsNew "method sign not implemented"), s)
|}.

#[global] Instance LocalHSM_impl :
  ThresholdEd25519Signature LocalHSMsignThresholdEd25519Signature := {|
  impl_dealShares _ s := (Panic "Not Implemented", s);
  impl_getEphemeralSecretPart _ s := (Panic "Not Implemented", s);
  impl_setEphemeralSecretPart _ s := (Panic "Not Implemented", s);
  impl_sign _ s := (Panic "Not Implemented", s)
|}.

#[global] Instance LocalSoftSign_impl {prim : Primitives} {pkg : SignerPackage} :
  ThresholdEd25519Signature World := {|
  impl_dealShares := dealShares;
  impl_getEphemeralSecretPart := getEphemeralSecretPart;
  impl_setEphemeralSecretPart := setEphemeralSecretPart;
  impl_sign := sign
|}.

(** ** The rest of package [signer], from the specification

    The file that defines [HRSTKey], [UnpackHRST] and [SignState] is not
    part of the sources at hand; the definitions below follow the
    specification's description of them (sections 3 and 4.4). *)

(** Modelled from the spec: the decoded view of sign bytes under the
    canonical block-vote schema; the decoder itself belongs to the
    consensus library and stays a parameter, what is missing is the
    schema, of which the specification names the height, round, step and
    timestamp, the block identifier and (by "every field other than the
    timestamp") the remaining fields. *)
Record CanonicalVote := mkCanonicalVote {
  cv_Step : Z;
  cv_Height : Z;
  cv_Round : Z;
  cv_BlockID : bytes;
  cv_Timestamp : Z;
  cv_ChainID : bytes
}.

(** Modelled from the spec: the lexicographic comparison of two
    (Height, Round, Step) triples, missing with [HRSTKey] and
    [SignState]. *)
Definition compareHRS (h1 r1 s1 h2 r2 s2 : Z) : comparison :=
  match h1 ?= h2 with
  | Eq => match r1 ?= r2 with
          | Eq => s1 ?= s2
          | c => c
          end
  | c => c
  end.

(** Modelled from the spec: [HRSTKey.Less], missing with [HRSTKey]; the
    order is on (Height, Round, Step) and ignores the timestamp. *)
Definition Less_spec (a b : HRSTKey) : bool :=
  match compareHRS (hrst_Height a) (hrst_Round a) (hrst_Step a)
                   (hrst_Height b) (hrst_Round b) (hrst_Step b) with
  | Lt => true
  | _ => false
  end.

(** Modelled from the spec: equality of two decoded votes on every field
    other than the timestamp, missing with [OnlyDifferByTimestamp]. *)
Definition sameButTimestamp (a b : CanonicalVote) : bool :=
  bool_decide (cv_Step a = cv_Step b) && bool_decide (cv_Height a = cv_Height b)
  && bool_decide (cv_Round a = cv_Round b)
  && bool_decide (cv_BlockID a = cv_BlockID b)
  && bool_decide (cv_ChainID a = cv_ChainID b).

Section SpecModel.
Variable decode : bytes -> option CanonicalVote.

(** Modelled from the spec: [UnpackHRST], missing; it recovers the HRS and
    the timestamp from the sign bytes. *)
Definition UnpackHRST_spec (signBytes : bytes) : error + HRSTKey :=
  match decode signBytes with
  | Some v => inr (mkHRSTKey (cv_Height v) (cv_Round v) (cv_Step v) (cv_Timestamp v))
  | None => inl (LibError "UnpackHRST")
  end.

(** Modelled from the spec: [SignState.CheckHRS], missing; true on the
    recorded HRS, false above it, [RegressionError] below it. *)
Definition CheckHRS_spec (lss : SignState) (hrst : HRSTKey) : error + bool :=
  match compareHRS (hrst_Height hrst) (hrst_Round hrst) (hrst_Step hrst)
                   (ss_Height lss) (ss_Round lss) (ss_Step lss) with
  | Lt => inl RegressionError
  | Eq => inr true
  | Gt => inr false
  end.

(** Modelled from the spec: [SignState.OnlyDifferByTimestamp], missing;
    both sign bytes are decoded and must agree outside the timestamp. *)
Definition OnlyDifferByTimestamp_spec (lss : SignState) (signBytes : bytes)
  : option error :=
  match decode (ss_SignBytes lss), decode signBytes with
  | Some old, Some new =>
      if sameButTimestamp old new then None else Some ConflictingDataError
  | _, _ => Some (LibError "OnlyDifferByTimestamp")
  end.

(** Modelled from the spec: [SignState.Save], missing; [SameHRSError] on
    the recorded HRS with the recorded sign bytes, [RegressionError] below
    the recorded HRS, otherwise the record replaces the in-memory state
    and the file.  The ephemeral public key is not part of the record: the
    object keeps the one it holds, and it is written with the rest. *)
Definition Save_spec (lss file : SignState) (ssc : SignStateConsensus)
  : SignState * SignState * option error :=
  let written :=
    mkSignState (ssc_Height ssc) (ssc_Round ssc) (ssc_Step ssc)
                (ss_EphemeralPublic lss) (ssc_Signature ssc) (ssc_SignBytes ssc) in
  match compareHRS (ssc_Height ssc) (ssc_Round ssc) (ssc_Step ssc)
                   (ss_Height lss) (ss_Round lss) (ss_Step lss) with
  | Lt => (lss, file, Some RegressionError)
  | Eq => if bytes_Equal (ssc_SignBytes ssc) (ss_SignBytes lss)
          then (lss, file, Some SameHRSError)
          else (written, written, None)
  | Gt => (written, written, None)
  end.

(** Modelled from the spec: the package assembled from the operations
    above, for a given decoder of sign bytes. *)
Definition SpecSignState : SignerPackage := {|
  UnpackHRST := UnpackHRST_spec;
  CheckHRS := CheckHRS_spec;
  OnlyDifferByTimestamp := OnlyDifferByTimestamp_spec;
  Save := Save_spec;
  Less := Less_spec
|}.

End SpecModel.

(** Two decoded votes differ in a field other than the timestamp. *)
Definition differOutsideTimestamp (a b : CanonicalVote) : Prop :=
  cv_Step a <> cv_Step b \/ cv_Height a <> cv_Height b \/ cv_Round a <> cv_Round b
  \/ cv_BlockID a <> cv_BlockID b \/ cv_ChainID a <> cv_ChainID b.

(** The order of the specification on (Height, Round, Step), as a
    proposition. *)
Definition hrs_lt (h1 r1 s1 h2 r2 s2 : Z) : Prop :=
  h1 < h2 \/ (h1 = h2 /\ (r1 < r2 \/ (r1 = r2 /\ s1 < s2))).

Definition hrs_eq (h1 r1 s1 h2 r2 s2 : Z) : Prop :=
  h1 = h2 /\ r1 = r2 /\ s1 = s2.


(** The HRS of a key against the HRS of the recorded sign state. *)
Definition belowRecorded (hrst : HRSTKey) (lss : SignState) : Prop :=
  hrs_lt (hrst_Height hrst) (hrst_Round hrst) (hrst_Step hrst)
         (ss_Height lss) (ss_Round lss) (ss_Step lss).
Definition atRecorded (hrst : HRSTKey) (lss : SignState) : Prop :=
  hrs_eq (hrst_Height hrst) (hrst_Round hrst) (hrst_Step hrst)
         (ss_Height lss) (ss_Round lss) (ss_Step lss).
Definition aboveRecorded (hrst : HRSTKey) (lss : SignState) : Prop :=
  hrs_lt (ss_Height lss) (ss_Round lss) (ss_Step lss)
         (hrst_Height hrst) (hrst_Round hrst) (hrst_Step hrst).

(** ** Executable stand-ins, to run the engine on concrete inputs

    Scalars are the real thing: 32 little-endian bytes, added modulo the
    group order, canonical when below it.  Curve points, the signing
    formula, RSA, the hash and the serialisation are simple stand-ins of
    the right shape. *)
Module Sample.

Definition byteOfZ (z : Z) : byte := default x00 (Byte.of_N (Z.to_N (z mod 256))).

Fixpoint leEncode (n : nat) (z : Z) : bytes :=
  match n with
  | O => []
  | S n' => byteOfZ z :: leEncode n' (z / 256)
  end.

Fixpoint leDecode (b : bytes) : Z :=
  match b with
  | [] => 0
  | x :: rest => Z.of_N (Byte.to_N x) + 256 * leDecode rest
  end.

(** The order of the Ed25519 group. *)
Definition groupOrder : Z := 2 ^ 252 + 27742317777372353535851937790883648493.

Definition sumScalars (l : list bytes) : Z :=
  foldr (fun s acc => leDecode s + acc) 0 l.

(** An additive dealing of [secret] into [n] shares, the first [n - 1]
    read from the tape. *)
Fixpoint dealFrom (n : nat) (tape : bytes) (remaining : Z) : list bytes * bytes :=
  match n with
  | O => ([], tape)
  | S O => ([leEncode 32 (remaining mod groupOrder)], tape)
  | S n' =>
      let r := leDecode (take 32 tape) mod groupOrder in
      let '(rest, tape') := dealFrom n' (drop 32 tape) (remaining - r) in
      (leEncode 32 r :: rest, tape')
  end.

Definition keyTag (k : RSAPublicKey) : byte := byteOfZ (rsa_N k).

Definition toyPrimitives : Primitives := {|
  AddScalars l := leEncode 32 (sumScalars l mod groupOrder);
  AddElements l := leEncode 32 (sumScalars l mod (2 ^ 255 - 19));
  ScalarMultiplyBase s := leEncode 32 (leDecode s * 9 mod (2 ^ 255 - 19));
  DealShares tape secret t n := dealFrom (Z.to_nat n) tape (leDecode secret);
  SignWithShare message signingShare ephemeralShare groupPubKey ephemeralPublic :=
    ephemeralPublic ++
    leEncode 32 ((leDecode ephemeralShare
                  + leDecode (ephemeralPublic ++ groupPubKey ++ message) mod groupOrder
                    * leDecode signingShare) mod groupOrder);
  ScMinimal b := leDecode b <? groupOrder;
  EncryptOAEP tape pub msg := (inr (keyTag pub :: msg), tape);
  DecryptOAEP tape priv ciphertext :=
    match ciphertext with
    | tag :: msg =>
        if bool_decide (tag = keyTag (rsa_Public priv)) then (inr msg, tape)
        else (inl (LibError "crypto/rsa: decryption error"), tape)
    | [] => (inl (LibError "crypto/rsa: decryption error"), tape)
    end;
  SignPSS tape priv digest := (inr (keyTag (rsa_Public priv) :: digest), tape);
  VerifyPSS pub digest sig :=
    if bool_decide (sig = keyTag pub :: digest) then None
    else Some (LibError "crypto/rsa: verification error");
  Sum256 b := leEncode 32 (leDecode b);
  Marshal part :=
    inr (byteOfZ (SourceID part) :: SourceEphemeralSecretPublicKey part
         ++ EncryptedSharePart part)
|}.

(** Sign bytes of the stand-in schema: one byte each for step, height,
    round and timestamp, then the block identifier. *)
Definition toyDecode (b : bytes) : option CanonicalVote :=
  match b with
  | s :: h :: r :: t :: blockID =>
      Some (mkCanonicalVote (Z.of_N (Byte.to_N s)) (Z.of_N (Byte.to_N h))
                            (Z.of_N (Byte.to_N r)) blockID (Z.of_N (Byte.to_N t)) [])
  | _ => None
  end.

Definition toySignBytes (step height round timestamp : Z) (blockID : bytes) : bytes :=
  byteOfZ step :: byteOfZ height :: byteOfZ round :: byteOfZ timestamp :: blockID.

(** A package whose [Save] cannot write its file. *)
Definition brokenDisk : SignerPackage := {|
  UnpackHRST := UnpackHRST_spec toyDecode;
  CheckHRS := CheckHRS_spec;
  OnlyDifferByTimestamp := OnlyDifferByTimestamp_spec toyDecode;
  Save lss file ssc := (lss, file, Some (LibError "write sign state: no space left"));
  Less := Less_spec
|}.

Definition key1 : RSAPrivateKey := mkRSAPrivateKey (mkRSAPublicKey 11 65537) 1.
Definition key2 : RSAPrivateKey := mkRSAPrivateKey (mkRSAPublicKey 22 65537) 2.

Definition tape0 : bytes :=
  flat_map (fun i => replicate 32 (byteOfZ (Z.of_nat i))) (seq 1 8).

(** Cosigner 1 of a 2-of-2 configuration, nothing signed yet. *)
Definition world0 : World := {|
  pubKeyBytes := leEncode 32 77;
  key := mkCosignerKey 1 (leEncode 32 5);
  rsaKey := key1;
  total := 2;
  threshold := 2;
  lastSignState := mkSignState 0 0 0 [] [] [];
  hrsMeta := ∅;
  peers := {[ 1 := mkCosignerPeer 1 (rsa_Public key1);
              2 := mkCosignerPeer 2 (rsa_Public key2) ]};
  peerArrays := [];
  stateFile := mkSignState 0 0 0 [] [] [];
  entropy := tape0;
  signCalls := []
|}.

(** Cosigner 2 of the same configuration. *)
Definition world0_peer2 : World := {|
  pubKeyBytes := leEncode 32 77;
  key := mkCosignerKey 2 (leEncode 32 6);
  rsaKey := key2;
  total := 2;
  threshold := 2;
  lastSignState := mkSignState 0 0 0 [] [] [];
  hrsMeta := ∅;
  peers := {[ 1 := mkCosignerPeer 1 (rsa_Public key1);
              2 := mkCosignerPeer 2 (rsa_Public key2) ]};
  peerArrays := [];
  stateFile := mkSignState 0 0 0 [] [] [];
  entropy := drop 64 tape0;
  signCalls := []
|}.

(** The world and the result after running [m]. *)
Definition after {A} (m : M A) (w : World) : World := (m w).2.
Definition result {A} (m : M A) (w : World) : outcome A := (m w).1.

Definition toyPkg : SignerPackage := SpecSignState toyDecode.
#[local] Existing Instance toyPrimitives.
#[local] Existing Instance toyPkg.

(** What the transport does with an envelope: it becomes a request for
    [setEphemeralSecretPart] at the HRST of the round. *)
Definition deliver (part : outcome CosignerEphemeralSecretPart)
    (height round step : Z) (timestamp : Time) : CosignerSetEphemeralSecretPartRequest :=
  match part with
  | Ok p => mkSetRequest (SourceID p) (SourceEphemeralSecretPublicKey p)
                         (EncryptedSharePart p) (SourceSig p) height round step timestamp
  | _ => mkSetRequest 0 [] [] None height round step timestamp
  end.

(** The round (10, 0, 2) with timestamp 7 and a lower round (5, 0, 2). *)
Definition time7 : Time := Unix 0 7.
Definition time3 : Time := Unix 0 3.
Definition hrst10 : HRSTKey := mkHRSTKey 10 0 2 7.
Definition hrst5 : HRSTKey := mkHRSTKey 5 0 2 3.
Definition signBytes10 : bytes := toySignBytes 2 10 0 7 [x01].
Definition signRequest10 : CosignerSignRequest := mkCosignerSignRequest signBytes10.
(** The same HRS with another block, and the step before. *)
Definition signRequest10_otherBlock : CosignerSignRequest :=
  mkCosignerSignRequest (toySignBytes 2 10 0 7 [x02]).
Definition signRequest10_step1 : CosignerSignRequest :=
  mkCosignerSignRequest (toySignBytes 1 10 0 7 [x01]).

Definition getRequest10 : CosignerGetEphemeralSecretPartRequest :=
  mkGetRequest 2 10 0 2 time7.
Definition getRequest5 : CosignerGetEphemeralSecretPartRequest :=
  mkGetRequest 2 5 0 2 time3.

(** Cosigner 1 has dealt for round 10 and holds its own share only. *)
Definition dealt10 : World := after (getEphemeralSecretPart getRequest10) world0.
(** ... and for round 5 as well. *)
Definition dealt5and10 : World := after (getEphemeralSecretPart getRequest5) dealt10.
(** Cosigner 1 has signed round 10. *)
Definition signed10 : World := after (sign signRequest10) dealt10.
(** ... and was then asked for a share of round 5. *)
Definition signed10_dealt5 : World := after (getEphemeralSecretPart getRequest5) signed10.

(** The envelope cosigner 2 sends to cosigner 1 for round 10, as delivered;
    and the same envelope relabelled as coming from cosigner 1. *)
Definition setRequest10 : CosignerSetEphemeralSecretPartRequest :=
  deliver (result (getEphemeralSecretPart (mkGetRequest 1 10 0 2 time7)) world0_peer2)
          10 0 2 time7.
Definition setRequest10_forged : CosignerSetEphemeralSecretPartRequest :=
  mkSetRequest 1 (set_SourceEphemeralSecretPublicKey setRequest10)
               (set_EncryptedSharePart setRequest10) (set_SourceSig setRequest10)
               10 0 2 time7.
Definition setRequest10_unsigned : CosignerSetEphemeralSecretPartRequest :=
  mkSetRequest 2 (set_SourceEphemeralSecretPublicKey setRequest10)
               (set_EncryptedSharePart setRequest10) None 10 0 2 time7.

(** The metadata of round 10 in [dealt10] and its peer slots. *)
Definition meta10 : HrsMetadata :=
  default (mkHrsMetadata [] [] 0) (hrsMeta dealt10 !! hrst10).
Definition slots10 : list PeerMetadata :=
  default [] (peerArrays dealt10 !! Peers meta10).

(** The same libraries with a scalar addition that does not reduce its
    sum, and a world whose only populated slot holds the largest 32-byte
    value: the case the bounds check of [sign] is there for. *)
Definition unreducedPrimitives : Primitives := {|
  AddScalars l := leEncode 32 (sumScalars l);
  AddElements := AddElements (Primitives := toyPrimitives);
  ScalarMultiplyBase := ScalarMultiplyBase (Primitives := toyPrimitives);
  DealShares := DealShares (Primitives := toyPrimitives);
  SignWithShare := SignWithShare (Primitives := toyPrimitives);
  ScMinimal := ScMinimal (Primitives := toyPrimitives);
  EncryptOAEP := EncryptOAEP (Primitives := toyPrimitives);
  DecryptOAEP := DecryptOAEP (Primitives := toyPrimitives);
  SignPSS := SignPSS (Primitives := toyPrimitives);
  VerifyPSS := VerifyPSS (Primitives := toyPrimitives);
  Sum256 := Sum256 (Primitives := toyPrimitives);
  Marshal := Marshal (Primitives := toyPrimitives)
|}.
Definition slotsOverflow : list PeerMetadata :=
  [mkPeerMetadata (replicate 32 xff) (leEncode 32 9); mkPeerMetadata [] []].
Definition overflow10 : World := set_peerArrays [slotsOverflow] dealt10.

End Sample.

(** ** Views of the world used by the further properties *)

(** The configuration of the cosigner, which no operation writes. *)
Definition sameConfig (w w' : World) : Prop :=
  pubKeyBytes w' = pubKeyBytes w /\ key w' = key w /\ rsaKey w' = rsaKey w
  /\ total w' = total w /\ threshold w' = threshold w /\ peers w' = peers w.

(** Every metadata of the map refers to a backing array that exists and
    has [total] slots, as [make([]PeerMetadata, cosigner.total)] built
    it. *)
Definition slotsSized (w : World) : Prop :=
  forall k meta, hrsMeta w !! k = Some meta ->
    exists arr, peerArrays w !! Peers meta = Some arr
                /\ length arr = Z.to_nat (total w).

(** The slots whose share is not empty. *)
Definition populatedSlots (arr : list PeerMetadata) : list PeerMetadata :=
  filter (fun p => length (Share p) <> 0%nat) arr.

(** The request of [req] aimed at another HRST: the fields the source
    signature covers are kept. *)
Definition retarget (req : CosignerSetEphemeralSecretPartRequest)
    (height round step : Z) (timestamp : Time)
  : CosignerSetEphemeralSecretPartRequest :=
  mkSetRequest (set_SourceID req) (set_SourceEphemeralSecretPublicKey req)
               (set_EncryptedSharePart req) (set_SourceSig req)
               height round step timestamp.

(** An index the Go runtime accepts for a slice of length [n]. *)
Definition inRange (i : Z) (n : nat) : Prop := 0 <= i < Z.of_nat n.

(** A computation that keeps [slotsSized]. *)
Definition keepsSized {A} (m : M A) : Prop :=
  forall w, slotsSized w -> slotsSized (m w).2.

(** What the transport makes of an envelope: the request for
    [setEphemeralSecretPart] at the HRST of the round. *)
Definition requestOfPart (part : CosignerEphemeralSecretPart)
    (height round step : Z) (timestamp : Time)
  : CosignerSetEphemeralSecretPartRequest :=
  mkSetRequest (SourceID part) (SourceEphemeralSecretPublicKey part)
               (EncryptedSharePart part) (SourceSig part)
               height round step timestamp.

(** The world after [meta.Peers[i]] has been set to a share and a public
    key. *)
Definition withSlot (meta : HrsMetadata) (arr : list PeerMetadata) (i : Z)
    (share pub : bytes) (w : World) : World :=
  set_peerArrays
    (<[Peers meta := <[Z.to_nat i := mkPeerMetadata share pub]> arr]> (peerArrays w)) w.

(** ** Further concrete inputs *)
Module Sample2.
Import Sample.
#[local] Existing Instance toyPrimitives.
#[local] Existing Instance toyPkg.

(** A package whose [Save] answers [SameHRSError] whenever the record is at
    the recorded HRS, and otherwise saves as [Save_spec]. *)
Definition strictSave : SignerPackage := {|
  UnpackHRST := UnpackHRST_spec toyDecode;
  CheckHRS := CheckHRS_spec;
  OnlyDifferByTimestamp := OnlyDifferByTimestamp_spec toyDecode;
  Save lss file ssc :=
    match compareHRS (ssc_Height ssc) (ssc_Round ssc) (ssc_Step ssc)
                     (ss_Height lss) (ss_Round lss) (ss_Step lss) with
    | Eq => (lss, file, Some SameHRSError)
    | _ => Save_spec lss file ssc
    end;
  Less := Less_spec
|}.

(** Round (10, 0, 2) again, with the timestamps 8 and 9. *)
Definition time8 : Time := Unix 0 8.
Definition time9 : Time := Unix 0 9.
Definition hrst10_8 : HRSTKey := mkHRSTKey 10 0 2 8.
Definition hrst10_9 : HRSTKey := mkHRSTKey 10 0 2 9.
Definition signRequest10_time8 : CosignerSignRequest :=
  mkCosignerSignRequest (toySignBytes 2 10 0 8 [x01]).
Definition signRequest10_time9 : CosignerSignRequest :=
  mkCosignerSignRequest (toySignBytes 2 10 0 9 [x01]).

(** Cosigner 1 has signed round 10 at timestamp 7 and has then dealt for
    the same round at timestamp 9. *)
Definition signed10_dealt9 : World :=
  after (getEphemeralSecretPart (mkGetRequest 2 10 0 2 time9)) signed10.
Definition meta9 : HrsMetadata :=
  default (mkHrsMetadata [] [] 0) (hrsMeta signed10_dealt9 !! hrst10_9).
Definition slots9 : list PeerMetadata :=
  default [] (peerArrays signed10_dealt9 !! Peers meta9).

(** The metadata of round 5 in [dealt5and10] and its slots. *)
Definition meta5 : HrsMetadata :=
  default (mkHrsMetadata [] [] 0) (hrsMeta dealt5and10 !! hrst5).
Definition slots5 : list PeerMetadata :=
  default [] (peerArrays dealt5and10 !! Peers meta5).

(** A third cosigner, configured for three cosigners, and cosigner 1 with
    that peer configured although its own [total] is 2. *)
Definition key3 : RSAPrivateKey := mkRSAPrivateKey (mkRSAPublicKey 33 65537) 3.
Definition world0_peer3 : World := {|
  pubKeyBytes := leEncode 32 77;
  key := mkCosignerKey 3 (leEncode 32 7);
  rsaKey := key3;
  total := 3;
  threshold := 2;
  lastSignState := mkSignState 0 0 0 [] [] [];
  hrsMeta := ∅;
  peers := {[ 1 := mkCosignerPeer 1 (rsa_Public key1);
              2 := mkCosignerPeer 2 (rsa_Public key2);
              3 := mkCosignerPeer 3 (rsa_Public key3) ]};
  peerArrays := [];
  stateFile := mkSignState 0 0 0 [] [] [];
  entropy := drop 32 tape0;
  signCalls := []
|}.
Definition dealt10_peer3 : World :=
  mkWorld (pubKeyBytes dealt10) (key dealt10) (rsaKey dealt10) (total dealt10)
    (threshold dealt10) (lastSignState dealt10) (hrsMeta dealt10)
    (<[3 := mkCosignerPeer 3 (rsa_Public key3)]> (peers dealt10))
    (peerArrays dealt10) (stateFile dealt10) (entropy dealt10) (signCalls dealt10).
Definition setRequest10_peer3 : CosignerSetEphemeralSecretPartRequest :=
  deliver (result (getEphemeralSecretPart (mkGetRequest 1 10 0 2 time7)) world0_peer3)
          10 0 2 time7.

(** Cosigner 1 misconfigured with an own ID that indexes no share. *)
Definition dealt10_id5 : World :=
  mkWorld (pubKeyBytes dealt10) (mkCosignerKey 5 (leEncode 32 5)) (rsaKey dealt10)
    (total dealt10) (threshold dealt10) (lastSignState dealt10) (hrsMeta dealt10)
    (peers dealt10) (peerArrays dealt10) (stateFile dealt10) (entropy dealt10)
    (signCalls dealt10).

(** The envelope cosigner 2 makes for itself, delivered to cosigner 1, who
    cannot decrypt it. *)
Definition setRequest10_misaddressed : CosignerSetEphemeralSecretPartRequest :=
  deliver (result (getEphemeralSecretPart (mkGetRequest 2 10 0 2 time7)) world0_peer2)
          10 0 2 time7.

(** Cosigner 1 after the envelope of cosigner 2 reached it before any
    request for a share. *)
Definition received10 : World := after (setEphemeralSecretPart setRequest10) world0.
Definition metaZero : HrsMetadata :=
  default (mkHrsMetadata [] [] 0)
          (hrsMeta received10 !! mkHRSTKey 10 0 2 (UnixNano zeroTime)).
Definition slotsZero : list PeerMetadata :=
  default [] (peerArrays received10 !! Peers metaZero).

(** The envelope cosigner 2 returns to cosigner 1 for round 10. *)
Definition part10 : CosignerEphemeralSecretPart :=
  match result (getEphemeralSecretPart (mkGetRequest 1 10 0 2 time7)) world0_peer2 with
  | Ok p => p
  | _ => mkSecretPart 0 [] [] None 0
  end.
Definition answered10_peer2 : World :=
  after (getEphemeralSecretPart (mkGetRequest 1 10 0 2 time7)) world0_peer2.

End Sample2.

(** * Properties

    First the order on (Height, Round, Step), then the engine for any
    libraries and any sign-state code, then [sign] over the sign state of
    the specification, then runs on concrete inputs. *)

Lemma compareHRS_Lt h1 r1 s1 h2 r2 s2 :
  compareHRS h1 r1 s1 h2 r2 s2 = Lt <-> hrs_lt h1 r1 s1 h2 r2 s2.
Proof.
  unfold compareHRS, hrs_lt.
  destruct (Z.compare_spec h1 h2), (Z.compare_spec r1 r2), (Z.compare_spec s1 s2);
    split; intros; try discriminate; try reflexivity; lia.
Qed.

Lemma compareHRS_Eq h1 r1 s1 h2 r2 s2 :
  compareHRS h1 r1 s1 h2 r2 s2 = Eq <-> hrs_eq h1 r1 s1 h2 r2 s2.
Proof.
  unfold compareHRS, hrs_eq.
  destruct (Z.compare_spec h1 h2), (Z.compare_spec r1 r2), (Z.compare_spec s1 s2);
    split; intros; try discriminate; try reflexivity; lia.
Qed.

Lemma compareHRS_Gt h1 r1 s1 h2 r2 s2 :
  compareHRS h1 r1 s1 h2 r2 s2 = Gt <-> hrs_lt h2 r2 s2 h1 r1 s1.
Proof.
  unfold compareHRS, hrs_lt.
  destruct (Z.compare_spec h1 h2), (Z.compare_spec r1 r2), (Z.compare_spec s1 s2);
    split; intros; try discriminate; try reflexivity; lia.
Qed.


(** ** Running the monad *)

Ltac unfold_monad :=
  unfold mbind, M_bind, mret, M_ret, bind, ret, fail, panic, gets, modify,
    orReturn, returnIf in *.

Section EngineFacts.
Context {prim : Primitives} {pkg : SignerPackage}.

(** *** dealShares *)

Lemma dealShares_present req w meta :
  hrsMeta w !! hrstOfGet req = Some meta ->
  dealShares req w = (Ok meta, w).
Proof.
  intros Hm. unfold dealShares. unfold_monad. rewrite Hm. reflexivity.
Qed.

(** What a dealing that goes through leaves in the map: the metadata it
    returns, under the key built from the request. *)
Lemma dealShares_installs req w meta w1 :
  dealShares req w = (Ok meta, w1) ->
  hrsMeta w1 !! hrstOfGet req = Some meta.
Proof.
  unfold dealShares, rand_Read, makePeers, withEntropy. unfold_monad.
  destruct (hrsMeta w !! hrstOfGet req) as [m|] eqn:Hm.
  - intros [= <- <-]. exact Hm.
  - simpl. case_bool_decide; simpl; [|discriminate].
    intros [= <- <-]. simpl. apply lookup_insert_eq.
Qed.

(** C5. [dealShares] is idempotent per HRST: when the key of the request
    is already in [hrsMeta], the call returns the stored metadata (its
    [Secret], its [DealtShares], its [Peers] reference) and leaves the
    whole world as it was, the entropy tape included: nothing is drawn,
    nothing is dealt again. *)
Theorem dealShares_idempotent req w meta :
  hrsMeta w !! hrstOfGet req = Some meta ->
  dealShares req w = (Ok meta, w)
  /\ entropy (dealShares req w).2 = entropy w
  /\ hrsMeta (dealShares req w).2 = hrsMeta w.
Proof.
  intros Hm. rewrite (dealShares_present _ _ _ Hm). auto.
Qed.

(** A second call after a first one that went through returns the same
    metadata and changes nothing. *)
Lemma dealShares_again req w meta w1 :
  dealShares req w = (Ok meta, w1) ->
  dealShares req w1 = (Ok meta, w1).
Proof.
  intros Hd. apply dealShares_present. eapply dealShares_installs; eauto.
Qed.

(** *** sign *)

Lemma copy32_id (b : bytes) : length b = 32%nat -> copy32 b = b.
Proof.
  intros Hl. unfold copy32. rewrite take_app_length'; auto.
Qed.

Lemma sign_unpack req w hrst :
  UnpackHRST (SignBytes req) = inr hrst ->
  sign req w =
    (sameHRS ← orReturn (CheckHRS (lastSignState w) hrst);
     early ← checkSameHRS req (lastSignState w) sameHRS;
     match early with
     | Some res => ret res
     | None => signFresh req hrst
     end) w.
Proof.
  intros Hu. unfold sign. unfold_monad. rewrite Hu. reflexivity.
Qed.

Lemma sign_passes req w hrst :
  passesHRS req w hrst -> sign req w = signFresh req hrst w.
Proof.
  intros (Hu & sameHRS & Hc & Hsame).
  rewrite (sign_unpack _ _ _ Hu). unfold checkSameHRS, bytes_Equal. unfold_monad.
  rewrite Hc. simpl. destruct sameHRS; [|reflexivity].
  destruct (Hsame eq_refl) as [Hne Ho].
  rewrite bool_decide_eq_false_2 by exact Hne. rewrite Ho. reflexivity.
Qed.

Lemma sign_replay req w hrst :
  UnpackHRST (SignBytes req) = inr hrst ->
  isReplay req w hrst ->
  sign req w =
    (Ok (mkCosignerSignResponse (ss_EphemeralPublic (lastSignState w))
                                (ss_Signature (lastSignState w))), w).
Proof.
  intros Hu [Hc Heq].
  rewrite (sign_unpack _ _ _ Hu). unfold checkSameHRS, bytes_Equal. unfold_monad.
  rewrite Hc. simpl. rewrite bool_decide_eq_true_2 by exact Heq. reflexivity.
Qed.

Lemma sign_paths req w :
  (exists e, sign req w = (Err e, w) /\ forall hrst, ~ passesHRS req w hrst)
  \/ (exists hrst, UnpackHRST (SignBytes req) = inr hrst /\ isReplay req w hrst)
  \/ (exists hrst, passesHRS req w hrst).
Proof.
  destruct (UnpackHRST (SignBytes req)) as [e|hrst] eqn:Hu.
  { left. exists e. split.
    - unfold sign. unfold_monad. rewrite Hu. reflexivity.
    - intros hrst [Hu' _]. congruence. }
  destruct (CheckHRS (lastSignState w) hrst) as [e|sameHRS] eqn:Hc.
  { left. exists e. split.
    - rewrite (sign_unpack _ _ _ Hu). unfold_monad. rewrite Hc. reflexivity.
    - intros hrst' (Hu' & b & Hc' & _). congruence. }
  destruct sameHRS.
  2:{ right; right. exists hrst. split; [exact Hu|]. exists false. split; [exact Hc|].
      discriminate. }
  destruct (decide (SignBytes req = ss_SignBytes (lastSignState w))) as [Heq|Hne].
  { right; left. exists hrst. repeat split; assumption. }
  destruct (OnlyDifferByTimestamp (lastSignState w) (SignBytes req)) as [e|] eqn:Ho.
  - left. exists e. split.
    + rewrite (sign_unpack _ _ _ Hu). unfold checkSameHRS, bytes_Equal. unfold_monad.
      rewrite Hc. simpl. rewrite bool_decide_eq_false_2 by exact Hne.
      rewrite Ho. reflexivity.
    + intros hrst' (Hu' & b & Hc' & Hs).
      assert (hrst' = hrst) as -> by congruence.
      assert (b = true) as -> by congruence.
      destruct (Hs eq_refl) as [_ Ho']. congruence.
  - right; right. exists hrst. split; [exact Hu|]. exists true. split; [exact Hc|].
    intros _. split; assumption.
Qed.

Lemma signFresh_no_metadata req hrst w :
  hrsMeta w !! hrst = None ->
  signFresh req hrst w = (Err NoMetadataForHRS, w).
Proof.
  intros Hm. unfold signFresh. unfold_monad. rewrite Hm. reflexivity.
Qed.

Lemma signFresh_dangling req hrst w meta :
  hrsMeta w !! hrst = Some meta ->
  peerArrays w !! Peers meta = None ->
  signFresh req hrst w = (Panic "invalid memory address", w).
Proof.
  intros Hm Ha. unfold signFresh, peersOf. unfold_monad. rewrite Hm. simpl.
  rewrite Ha. reflexivity.
Qed.

Lemma signFresh_out_of_bounds req hrst w arr :
  hasShares w hrst arr ->
  length (ephemeralShareOf arr) <> 32%nat \/ ScMinimal (ephemeralShareOf arr) = false ->
  signFresh req hrst w = (Err EphemeralShareOutOfBounds, w).
Proof.
  intros (meta & Hm & Ha) Hb. unfold signFresh, peersOf. unfold_monad.
  rewrite Hm. simpl. rewrite Ha. simpl.
  unfold ephemeralShareOf in Hb.
  destruct (collectParts arr [] []) as [shareParts publicKeys]. simpl in *.
  destruct (Nat.eqb_spec (length (AddScalars shareParts)) 32) as [Hl|Hl]; simpl.
  - destruct Hb as [Hb|Hb]; [contradiction|].
    rewrite (copy32_id _ Hl), Hb. reflexivity.
  - reflexivity.
Qed.

Lemma signFresh_in_bounds req hrst w arr s' f' err :
  hasShares w hrst arr ->
  length (ephemeralShareOf arr) = 32%nat ->
  ScMinimal (ephemeralShareOf arr) = true ->
  Save (setEphemeralPublic (ephemeralPublicOf arr) (lastSignState w)) (stateFile w)
       (recordOf req hrst w arr) = (s', f', err) ->
  let w3 := set_stateFile f' (set_lastSignState s'
              (set_signCalls (signCalls w ++ [callOf req w arr]) w)) in
  let done := (Ok (mkCosignerSignResponse (ephemeralPublicOf arr)
                                          (signatureOf req w arr)),
               set_hrsMeta (deleteLower hrst (hrsMeta w)) w3) in
  signFresh req hrst w =
    match err with
    | Some e => if isSameHRSError e then done else (Err e, w3)
    | None => done
    end.
Proof.
  intros (meta & Hm & Ha) Hl Hs HS. unfold signFresh, peersOf, callSignWithShare, callSave.
  unfold_monad. rewrite Hm. simpl. rewrite Ha. simpl.
  unfold recordOf, signatureOf, callOf, ephemeralShareOf, ephemeralPublicOf in *.
  destruct (collectParts arr [] []) as [shareParts publicKeys]. simpl in *.
  rewrite Hl. simpl. rewrite (copy32_id _ Hl), Hs. simpl.
  rewrite HS. destruct err as [e|]; [destruct (isSameHRSError e)|]; reflexivity.
Qed.

(** *** The collection of lower metadata *)

Lemma deleteLower_foldr hrst (ks : list HRSTKey) (acc : gmap HRSTKey HrsMetadata) k :
  foldr (fun existingKey acc =>
           if Less existingKey hrst then delete existingKey acc else acc) acc ks !! k
  = if Less k hrst && bool_decide (k ∈ ks) then None else acc !! k.
Proof.
  induction ks as [|k0 ks IH]; simpl.
  - rewrite andb_false_r. reflexivity.
  - destruct (Less k0 hrst) eqn:Hk0.
    + rewrite lookup_delete. destruct (decide (k0 = k)) as [Hk|Hk].
      * rewrite <- Hk, Hk0. simpl.
        rewrite bool_decide_eq_true_2 by (apply elem_of_cons; auto). reflexivity.
      * rewrite IH. destruct (Less k hrst); simpl; [|reflexivity].
        rewrite (bool_decide_ext (k ∈ k0 :: ks) (k ∈ ks)); [reflexivity|].
        rewrite elem_of_cons. split; [|auto]. intros [->|?]; [congruence|auto].
    + rewrite IH. destruct (Less k hrst) eqn:Hk; simpl; [|reflexivity].
      rewrite (bool_decide_ext (k ∈ k0 :: ks) (k ∈ ks)); [reflexivity|].
      rewrite elem_of_cons. split; [|auto]. intros [->|?]; [congruence|auto].
Qed.

Lemma deleteLower_lookup hrst (m : gmap HRSTKey HrsMetadata) k :
  deleteLower hrst m !! k = if Less k hrst then None else m !! k.
Proof.
  unfold deleteLower. rewrite deleteLower_foldr.
  destruct (Less k hrst); simpl; [|reflexivity].
  case_bool_decide as Hin; [reflexivity|].
  destruct (m !! k) as [v|] eqn:Hv; [|reflexivity].
  exfalso. apply Hin. apply list_elem_of_fmap. exists (k, v). split; [reflexivity|].
  apply elem_of_map_to_list. exact Hv.
Qed.

(** *** Claims on [sign] that hold whatever the sign-state code does *)

(** C4. [SignWithShare] is called at most once by a call of [sign], and
    only with an ephemeral share that is the sum of the non-empty peer
    shares, is 32 bytes long and passes [ScMinimal]; when [sign] reaches
    the aggregation and the sum is not 32 bytes long or not canonical, it
    fails with "ephemeral share is out of bounds" and changes nothing. *)
Theorem sign_share_in_bounds req w r w' :
  sign req w = (r, w') ->
  (signCalls w' = signCalls w \/
   exists c hrst arr,
     signCalls w' = signCalls w ++ [c] /\
     passesHRS req w hrst /\ hasShares w hrst arr /\
     call_ephemeralShare c = ephemeralShareOf arr /\
     length (call_ephemeralShare c) = 32%nat /\
     ScMinimal (call_ephemeralShare c) = true)
  /\ (forall hrst arr,
        passesHRS req w hrst -> hasShares w hrst arr ->
        length (ephemeralShareOf arr) <> 32%nat
        \/ ScMinimal (ephemeralShareOf arr) = false ->
        r = Err EphemeralShareOutOfBounds /\ w' = w).
Proof.
  intros Hs. split.
  - destruct (sign_paths req w) as [(e & He & _)|[(hrst & Hu & Hr)|(hrst & Hp)]].
    + left. congruence.
    + left. rewrite (sign_replay _ _ _ Hu Hr) in Hs. congruence.
    + rewrite (sign_passes _ _ _ Hp) in Hs.
      destruct (hrsMeta w !! hrst) as [meta|] eqn:Hm.
      2:{ left. rewrite (signFresh_no_metadata _ _ _ Hm) in Hs. congruence. }
      destruct (peerArrays w !! Peers meta) as [arr|] eqn:Ha.
      2:{ left. rewrite (signFresh_dangling _ _ _ _ Hm Ha) in Hs. congruence. }
      assert (hasShares w hrst arr) as Hh by (exists meta; auto).
      destruct (decide (length (ephemeralShareOf arr) = 32%nat)) as [Hl|Hl].
      2:{ left. rewrite (signFresh_out_of_bounds _ _ _ _ Hh) in Hs by auto. congruence. }
      destruct (ScMinimal (ephemeralShareOf arr)) eqn:Hc.
      2:{ left. rewrite (signFresh_out_of_bounds _ _ _ _ Hh) in Hs by auto. congruence. }
      right. exists (callOf req w arr), hrst, arr.
      destruct (Save (setEphemeralPublic (ephemeralPublicOf arr) (lastSignState w))
                     (stateFile w) (recordOf req hrst w arr)) as [[s' f'] err] eqn:HS.
      rewrite (signFresh_in_bounds _ _ _ _ _ _ _ Hh Hl Hc HS) in Hs.
      assert (signCalls w' = signCalls w ++ [callOf req w arr]) as Hcalls.
      { destruct err as [e|]; [destruct (isSameHRSError e)|];
          injection Hs as _ <-; reflexivity. }
      split; [exact Hcalls|]. split; [exact Hp|]. split; [exact Hh|].
      split; [reflexivity|]. split; [exact Hl|exact Hc].
  - intros hrst arr Hp Hh Hb.
    rewrite (sign_passes _ _ _ Hp), (signFresh_out_of_bounds _ _ _ _ Hh Hb) in Hs.
    split; congruence.
Qed.

(** C6, as the code has it.  After a call of [sign] that returns success
    by signing afresh, that is on any path but the early return of the
    recorded signature, [hrsMeta] holds no key below the HRST of the
    request. *)
Theorem sign_fresh_drops_lower req w res w' hrst :
  sign req w = (Ok res, w') ->
  UnpackHRST (SignBytes req) = inr hrst ->
  ~ isReplay req w hrst ->
  forall k, Less k hrst = true -> hrsMeta w' !! k = None.
Proof.
  intros Hs Hu Hnr k Hk.
  destruct (sign_paths req w) as [(e & He & _)|[(hrst' & Hu' & Hr)|(hrst' & Hp)]].
  - congruence.
  - assert (hrst' = hrst) as -> by congruence. contradiction.
  - assert (hrst' = hrst) as -> by (destruct Hp; congruence).
    rewrite (sign_passes _ _ _ Hp) in Hs.
    destruct (hrsMeta w !! hrst) as [meta|] eqn:Hm.
    2:{ rewrite (signFresh_no_metadata _ _ _ Hm) in Hs. discriminate. }
    destruct (peerArrays w !! Peers meta) as [arr|] eqn:Ha.
    2:{ rewrite (signFresh_dangling _ _ _ _ Hm Ha) in Hs. discriminate. }
    assert (hasShares w hrst arr) as Hh by (exists meta; auto).
    destruct (decide (length (ephemeralShareOf arr) = 32%nat)) as [Hl|Hl].
    2:{ rewrite (signFresh_out_of_bounds _ _ _ _ Hh) in Hs by auto. discriminate. }
    destruct (ScMinimal (ephemeralShareOf arr)) eqn:Hc.
    2:{ rewrite (signFresh_out_of_bounds _ _ _ _ Hh) in Hs by auto. discriminate. }
    destruct (Save (setEphemeralPublic (ephemeralPublicOf arr) (lastSignState w))
                   (stateFile w) (recordOf req hrst w arr)) as [[s' f'] err] eqn:HS.
    rewrite (signFresh_in_bounds _ _ _ _ _ _ _ Hh Hl Hc HS) in Hs.
    assert (hrsMeta w' = deleteLower hrst (hrsMeta w)) as ->.
    { destruct err as [e|]; [destruct (isSameHRSError e)|];
        try discriminate; injection Hs as _ <-; reflexivity. }
    rewrite deleteLower_lookup, Hk. reflexivity.
Qed.

(** C10. [sign] writes the new aggregate into
    [lastSignState.EphemeralPublic] before it calls [Save]: [Save] is
    handed the object that already carries it.  So when [Save] fails with
    an error that is not a [SameHRSError], and a failing [Save] leaves
    that field as it finds it, [sign] returns the error, and the in-memory
    state is the one [Save] left, with the new aggregate as its ephemeral
    public key; nothing is collected from [hrsMeta]. *)
Theorem sign_save_failure_not_atomic req w hrst arr s' f' e :
  (forall s f c s1 f1 e1,
     Save s f c = (s1, f1, Some e1) -> ss_EphemeralPublic s1 = ss_EphemeralPublic s) ->
  passesHRS req w hrst ->
  hasShares w hrst arr ->
  length (ephemeralShareOf arr) = 32%nat ->
  ScMinimal (ephemeralShareOf arr) = true ->
  Save (setEphemeralPublic (ephemeralPublicOf arr) (lastSignState w)) (stateFile w)
       (recordOf req hrst w arr) = (s', f', Some e) ->
  isSameHRSError e = false ->
  exists w', sign req w = (Err e, w')
    /\ lastSignState w' = s'
    /\ ss_EphemeralPublic (lastSignState w') = ephemeralPublicOf arr
    /\ hrsMeta w' = hrsMeta w.
Proof.
  intros Hframe Hp Hh Hl Hc HS He.
  rewrite (sign_passes _ _ _ Hp), (signFresh_in_bounds _ _ _ _ _ _ _ Hh Hl Hc HS).
  simpl. rewrite He. eexists. split; [reflexivity|]. simpl.
  repeat split. rewrite (Hframe _ _ _ _ _ _ HS). reflexivity.
Qed.

(** *** The share operations *)

Lemma verifySource_frame req w : (verifySource req w).2 = w.
Proof.
  unfold verifySource. unfold_monad.
  destruct (set_SourceSig req) as [sourceSig|]; [|reflexivity].
  destruct (Marshal (digestMsgOf req)) as [e|digestBytes]; [reflexivity|]. simpl.
  destruct (peers w !! set_SourceID req) as [peer|]; [|reflexivity].
  destruct (VerifyPSS (peer_PublicKey peer) (Sum256 digestBytes) sourceSig);
    reflexivity.
Qed.

Lemma verifySource_verified req w :
  (verifySource req w).1 = Ok tt <-> sourceVerified req w.
Proof.
  unfold verifySource, sourceVerified. unfold_monad. split.
  - destruct (set_SourceSig req) as [sourceSig|]; [|discriminate].
    destruct (Marshal (digestMsgOf req)) as [e|digestBytes]; [discriminate|]. simpl.
    destruct (peers w !! set_SourceID req) as [peer|]; [|discriminate].
    destruct (VerifyPSS (peer_PublicKey peer) (Sum256 digestBytes) sourceSig) eqn:Hv;
      [discriminate|].
    intros _. exists sourceSig, digestBytes, peer. auto.
  - intros (sourceSig & digestBytes & peer & -> & -> & Hp & Hv). simpl.
    rewrite Hp, Hv. reflexivity.
Qed.

(** A request that does not pass the check of the source stops there. *)
Lemma setEphemeralSecretPart_unverified req w :
  (verifySource req w).1 <> Ok tt ->
  setEphemeralSecretPart req w = verifySource req w.
Proof.
  intros Hv. unfold setEphemeralSecretPart. unfold_monad.
  pose proof (verifySource_frame req w) as Hf.
  destruct (verifySource req w) as [[[]|e|msg] w0]; simpl in *; subst;
    [contradiction| |]; reflexivity.
Qed.

Lemma setEphemeralSecretPart_verified req w :
  (verifySource req w).1 = Ok tt ->
  setEphemeralSecretPart req w =
    (meta ← lookupOrDeal (hrstOfSet req) (dealRequestOfSet req);
     storeSharePart req meta) w.
Proof.
  intros Hv. unfold setEphemeralSecretPart. unfold_monad.
  pose proof (verifySource_frame req w) as Hf.
  destruct (verifySource req w) as [r w0]; simpl in *; subst. reflexivity.
Qed.

(** C7. [setEphemeralSecretPart] accepts an envelope, or writes to any
    peer slot at all, only when the source signature is present and
    verifies under the configured public key of the claimed [SourceID]
    over the hash of the serialised [SourceID],
    [SourceEphemeralSecretPublicKey] and [EncryptedSharePart]; without a
    [SourceSig], or when the verification fails, the call returns the
    error and leaves the world, every peer slot included, as it was. *)
Theorem setEphemeralSecretPart_authenticated req w r w' :
  setEphemeralSecretPart req w = (r, w') ->
  (r = Ok tt \/ peerArrays w' <> peerArrays w -> sourceVerified req w)
  /\ (set_SourceSig req = None -> r = Err MissingSignature /\ w' = w)
  /\ (forall sourceSig digestBytes peer e,
        set_SourceSig req = Some sourceSig ->
        Marshal (digestMsgOf req) = inr digestBytes ->
        peers w !! set_SourceID req = Some peer ->
        VerifyPSS (peer_PublicKey peer) (Sum256 digestBytes) sourceSig = Some e ->
        r = Err e /\ w' = w).
Proof.
  intros Hs. split; [|split].
  - intros Hacc. apply verifySource_verified.
    assert ((verifySource req w).1 = Ok tt \/ (verifySource req w).1 <> Ok tt)
      as [Hv|Hv]; [|exact Hv|].
    { destruct (verifySource req w).1 as [[]|e|msg]; [left; reflexivity| |];
        right; discriminate. }
    exfalso. rewrite (setEphemeralSecretPart_unverified _ _ Hv) in Hs.
    pose proof (verifySource_frame req w) as Hf. rewrite Hs in Hv, Hf. simpl in *.
    subst w'. destruct Hacc as [Hok|Hne]; [contradiction|]. apply Hne. reflexivity.
  - intros Hnil.
    assert (verifySource req w = (Err MissingSignature, w)) as Hv.
    { unfold verifySource. rewrite Hnil. reflexivity. }
    rewrite setEphemeralSecretPart_unverified in Hs by (rewrite Hv; discriminate).
    rewrite Hv in Hs. split; congruence.
  - intros sourceSig digestBytes peer e Hsig Hm Hp He.
    assert (verifySource req w = (Err e, w)) as Hv.
    { unfold verifySource. unfold_monad. rewrite Hsig, Hm. simpl. rewrite Hp, He.
      reflexivity. }
    rewrite setEphemeralSecretPart_unverified in Hs by (rewrite Hv; discriminate).
    rewrite Hv in Hs. split; congruence.
Qed.

Create HintDb keeps.

Lemma keepsMeta_bind {A B} (m : M A) (k : A -> M B) :
  keepsMeta m -> (forall a, keepsMeta (k a)) -> keepsMeta (m ≫= k).
Proof.
  intros Hm Hk w. unfold_monad. specialize (Hm w).
  destruct (m w) as [[a|e|msg] w1]; simpl in *; [|assumption..].
  rewrite (Hk a w1). exact Hm.
Qed.

Lemma keepsMeta_ret {A} (a : A) : keepsMeta (mret a).
Proof. intros w. reflexivity. Qed.
Lemma keepsMeta_fail {A} e : keepsMeta (@fail A e).
Proof. intros w. reflexivity. Qed.
Lemma keepsMeta_panic {A} msg : keepsMeta (@panic A msg).
Proof. intros w. reflexivity. Qed.
Lemma keepsMeta_gets {A} (f : World -> A) : keepsMeta (gets f).
Proof. intros w. reflexivity. Qed.
Lemma keepsMeta_orReturn {A} (r : error + A) : keepsMeta (orReturn r).
Proof. intros w. destruct r; reflexivity. Qed.
Lemma keepsMeta_returnIf r : keepsMeta (returnIf r).
Proof. intros w. destruct r; reflexivity. Qed.
Lemma keepsMeta_set_entropy t : keepsMeta (modify (set_entropy t)).
Proof. intros w. reflexivity. Qed.
Lemma keepsMeta_set_peerArrays (f : World -> list (list PeerMetadata)) :
  keepsMeta (modify (fun w => set_peerArrays (f w) w)).
Proof. intros w. reflexivity. Qed.

#[local] Hint Resolve keepsMeta_ret keepsMeta_fail keepsMeta_panic keepsMeta_gets
  keepsMeta_orReturn keepsMeta_returnIf keepsMeta_set_entropy keepsMeta_set_peerArrays : keeps.

Ltac keeps :=
  repeat first
    [ progress (intros)
    | apply keepsMeta_bind
    | solve [auto with keeps]
    | match goal with
      | |- keepsMeta (match ?x with _ => _ end) => destruct x
      | |- keepsMeta (if ?b then _ else _) => destruct b
      end ].

Lemma keepsMeta_index {A} (l : list A) i : keepsMeta (index l i).
Proof. unfold index. keeps. Qed.

Lemma keepsMeta_withEntropy {A} (f : bytes -> A * bytes) : keepsMeta (withEntropy f).
Proof. unfold withEntropy. keeps. Qed.

Lemma keepsMeta_peersOf meta : keepsMeta (peersOf meta).
Proof. unfold peersOf. keeps. Qed.

#[local] Hint Resolve keepsMeta_index keepsMeta_withEntropy keepsMeta_peersOf : keeps.

Lemma keepsMeta_setPeerSlot meta i share pub : keepsMeta (setPeerSlot meta i share pub).
Proof. unfold setPeerSlot. keeps. Qed.

#[local] Hint Resolve keepsMeta_setPeerSlot : keeps.

Lemma keepsMeta_storeSharePart req meta : keepsMeta (storeSharePart req meta).
Proof. unfold storeSharePart. keeps. Qed.

Lemma keepsMeta_answerWithPart req meta : keepsMeta (answerWithPart req meta).
Proof. unfold answerWithPart. keeps. Qed.

Lemma lookupOrDeal_absent hrst dealReq w :
  hrsMeta w !! hrst = None ->
  lookupOrDeal hrst dealReq w =
    match dealShares dealReq w with
    | (Ok meta, w1) => (Ok meta, set_hrsMeta (<[hrst := meta]> (hrsMeta w1)) w1)
    | (Err e, w1) => (Err e, w1)
    | (Panic msg, w1) => (Panic msg, w1)
    end.
Proof.
  intros Hm. unfold lookupOrDeal. unfold_monad. rewrite Hm.
  destruct (dealShares dealReq w) as [[meta|e|msg] w1]; reflexivity.
Qed.

Lemma UnixNano_zeroTime : UnixNano zeroTime = -6795364578871345152.
Proof. reflexivity. Qed.

(** C8, as the code has it.  When [setEphemeralSecretPart] finds no
    metadata under the HRST of its request, it calls [dealShares] with a
    request whose [Timestamp] is the zero [time.Time]; the dealer keys the
    metadata under (Height, Round, Step) and [UnixNano] of the zero time,
    which is -6795364578871345152 and not 0, and the caller then stores
    the same metadata under the HRST of the request as well.
    [getEphemeralSecretPart] calls [dealShares] with the timestamp of its
    request, so the dealer's key is the HRST of the request. *)
Theorem lazy_creation_keys :
  UnixNano zeroTime = -6795364578871345152
  /\ (forall req w,
        sourceVerified req w ->
        hrsMeta w !! hrstOfSet req = None ->
        match dealShares (mkGetRequest 0 (set_Height req) (set_Round req)
                                       (set_Step req) zeroTime) w with
        | (Ok meta, w1) =>
            hrsMeta w1 !! mkHRSTKey (set_Height req) (set_Round req) (set_Step req)
                                    (-6795364578871345152) = Some meta
            /\ hrsMeta (setEphemeralSecretPart req w).2
               = <[hrstOfSet req := meta]> (hrsMeta w1)
        | (Err e, w1) => setEphemeralSecretPart req w = (Err e, w1)
        | (Panic msg, w1) => setEphemeralSecretPart req w = (Panic msg, w1)
        end)
  /\ (forall req w,
        hrsMeta w !! hrstOfGet req = None ->
        match dealShares (mkGetRequest 0 (get_Height req) (get_Round req)
                                       (get_Step req) (get_Timestamp req)) w with
        | (Ok meta, w1) =>
            hrsMeta w1 !! mkHRSTKey (get_Height req) (get_Round req) (get_Step req)
                                    (UnixNano (get_Timestamp req)) = Some meta
            /\ hrsMeta (getEphemeralSecretPart req w).2 = hrsMeta w1
        | (Err e, w1) => getEphemeralSecretPart req w = (Err e, w1)
        | (Panic msg, w1) => getEphemeralSecretPart req w = (Panic msg, w1)
        end).
Proof.
  split; [reflexivity|]. split.
  - intros req w Hv Hm. apply verifySource_verified in Hv.
    rewrite (setEphemeralSecretPart_verified _ _ Hv).
    change (mkGetRequest 0 (set_Height req) (set_Round req) (set_Step req) zeroTime)
      with (dealRequestOfSet req).
    unfold mbind, M_bind, bind. rewrite (lookupOrDeal_absent _ _ _ Hm).
    destruct (dealShares (dealRequestOfSet req) w) as [[meta|e|msg] w1] eqn:Hd;
      [|reflexivity..].
    split.
    + apply (dealShares_installs _ _ _ _ Hd).
    + rewrite keepsMeta_storeSharePart. reflexivity.
  - intros req w Hm. unfold getEphemeralSecretPart.
    unfold mbind, M_bind, bind. rewrite (lookupOrDeal_absent _ _ _ Hm).
    destruct (dealShares _ w) as [[meta|e|msg] w1] eqn:Hd; [|reflexivity..].
    pose proof (dealShares_installs _ _ _ _ Hd) as Hin.
    split; [exact Hin|].
    rewrite keepsMeta_answerWithPart. simpl.
    apply insert_id. exact Hin.
Qed.

End EngineFacts.

(** ** Claims on [sign] over the sign state of the specification *)

Section SpecFacts.
Context {prim : Primitives} (decode : bytes -> option CanonicalVote).

Lemma sameButTimestamp_false a b :
  differOutsideTimestamp a b -> sameButTimestamp a b = false.
Proof.
  unfold differOutsideTimestamp, sameButTimestamp. intros Hd.
  repeat case_bool_decide; simpl; try reflexivity. exfalso. intuition.
Qed.

(** C1. A request whose unpacked (Height, Round, Step) is below the HRS of
    the last sign state fails with [RegressionError], and the world after
    the call is the world before it: [hrsMeta] is neither read nor
    written, so no entry appears for the HRST of the request, and the
    sign state, in memory and on file, is unchanged. *)
Theorem sign_regression_refused req w hrst :
  UnpackHRST_spec decode (SignBytes req) = inr hrst ->
  belowRecorded hrst (lastSignState w) ->
  sign (pkg := SpecSignState decode) req w = (Err RegressionError, w)
  /\ forall m, sign (pkg := SpecSignState decode) req (set_hrsMeta m w)
               = (Err RegressionError, set_hrsMeta m w).
Proof.
  intros Hu Hlt.
  assert (forall w0, lastSignState w0 = lastSignState w ->
            sign (pkg := SpecSignState decode) req w0 = (Err RegressionError, w0)) as Hall.
  { intros w0 Hl. rewrite (sign_unpack (pkg := SpecSignState decode) _ _ _ Hu). unfold_monad.
    simpl. unfold CheckHRS_spec. rewrite Hl.
    apply compareHRS_Lt in Hlt. rewrite Hlt. reflexivity. }
  split; [apply Hall; reflexivity|]. intros m. apply Hall. reflexivity.
Qed.

(** C2. A request at the HRS of the last sign state whose sign bytes
    differ from the recorded ones in a field other than the timestamp
    fails with [ConflictingDataError]; no signature is produced and the
    world, the sign state in memory and on file included, is unchanged. *)
Theorem sign_conflict_refused req w hrst old new :
  UnpackHRST_spec decode (SignBytes req) = inr hrst ->
  atRecorded hrst (lastSignState w) ->
  decode (ss_SignBytes (lastSignState w)) = Some old ->
  decode (SignBytes req) = Some new ->
  differOutsideTimestamp old new ->
  sign (pkg := SpecSignState decode) req w = (Err ConflictingDataError, w).
Proof.
  intros Hu Heq Hold Hnew Hdiff.
  rewrite (sign_unpack (pkg := SpecSignState decode) _ _ _ Hu).
  unfold checkSameHRS, bytes_Equal. unfold_monad. simpl.
  unfold CheckHRS_spec. apply compareHRS_Eq in Heq. rewrite Heq. simpl.
  assert (SignBytes req <> ss_SignBytes (lastSignState w)) as Hne.
  { intros E. rewrite E, Hold in Hnew. injection Hnew as ->.
    pose proof (sameButTimestamp_false _ _ Hdiff) as Hf.
    unfold sameButTimestamp in Hf. repeat rewrite bool_decide_eq_true_2 in Hf by reflexivity.
    discriminate. }
  rewrite bool_decide_eq_false_2 by exact Hne.
  unfold OnlyDifferByTimestamp_spec. rewrite Hold, Hnew.
  rewrite (sameButTimestamp_false _ _ Hdiff). reflexivity.
Qed.

(** C3. A request whose unpacked HRS is the HRS of the last sign state and
    whose sign bytes are the recorded ones returns the recorded
    [EphemeralPublic] and [Signature], and the world after the call is the
    world before it: nothing is written to the file, nothing is signed. *)
Theorem sign_replay_idempotent req w hrst :
  UnpackHRST_spec decode (SignBytes req) = inr hrst ->
  atRecorded hrst (lastSignState w) ->
  SignBytes req = ss_SignBytes (lastSignState w) ->
  sign (pkg := SpecSignState decode) req w =
    (Ok (mkCosignerSignResponse (ss_EphemeralPublic (lastSignState w))
                                (ss_Signature (lastSignState w))), w).
Proof.
  intros Hu Heq Hsb. apply (sign_replay (pkg := SpecSignState decode) _ _ _ Hu).
  split; [|exact Hsb]. simpl. unfold CheckHRS_spec.
  apply compareHRS_Eq in Heq. rewrite Heq. reflexivity.
Qed.

Lemma Save_spec_frame s f c s1 f1 e1 :
  Save_spec s f c = (s1, f1, Some e1) -> ss_EphemeralPublic s1 = ss_EphemeralPublic s.
Proof.
  unfold Save_spec.
  destruct (compareHRS _ _ _ _ _ _); [destruct (bytes_Equal _ _)| |];
    intros [= <- _ _]; reflexivity.
Qed.

(** A request above the recorded HRS, or at it with other sign bytes that
    only differ by timestamp, gets past the checks of the HRS. *)
Lemma passesHRS_spec req w hrst :
  UnpackHRST_spec decode (SignBytes req) = inr hrst ->
  aboveRecorded hrst (lastSignState w)
  \/ (atRecorded hrst (lastSignState w)
      /\ SignBytes req <> ss_SignBytes (lastSignState w)
      /\ OnlyDifferByTimestamp_spec decode (lastSignState w) (SignBytes req) = None) ->
  passesHRS (pkg := SpecSignState decode) req w hrst.
Proof.
  intros Hu Hpos. split; [exact Hu|]. simpl. unfold CheckHRS_spec.
  destruct Hpos as [Hgt|(Heq & Hne & Ho)].
  - apply compareHRS_Gt in Hgt. rewrite Hgt. exists false. split; [reflexivity|].
    discriminate.
  - apply compareHRS_Eq in Heq. rewrite Heq. exists true. split; [reflexivity|].
    intros _. split; assumption.
Qed.

(** C9. [sign] does not look at [threshold], nor at how many peer slots
    are populated: whatever the threshold [t], a request that gets past
    the checks of the HRS and finds metadata whose non-empty shares sum to
    a canonical 32-byte scalar is signed, and the signature is recorded in
    memory and on file. *)
Theorem sign_ignores_threshold req w hrst arr (t : Z) :
  UnpackHRST_spec decode (SignBytes req) = inr hrst ->
  aboveRecorded hrst (lastSignState w)
  \/ (atRecorded hrst (lastSignState w)
      /\ SignBytes req <> ss_SignBytes (lastSignState w)
      /\ OnlyDifferByTimestamp_spec decode (lastSignState w) (SignBytes req) = None) ->
  hasShares w hrst arr ->
  length (ephemeralShareOf arr) = 32%nat ->
  ScMinimal (ephemeralShareOf arr) = true ->
  exists w',
    sign (pkg := SpecSignState decode) req (set_threshold t w)
    = (Ok (mkCosignerSignResponse (ephemeralPublicOf arr) (signatureOf req w arr)), w')
    /\ stateFile w' = mkSignState (hrst_Height hrst) (hrst_Round hrst) (hrst_Step hrst)
                                  (ephemeralPublicOf arr) (signatureOf req w arr)
                                  (SignBytes req)
    /\ lastSignState w' = stateFile w'
    /\ signCalls w' = signCalls w ++ [callOf req w arr].
Proof.
  intros Hu Hpos Hh Hl Hc.
  pose proof (passesHRS_spec req (set_threshold t w) hrst Hu Hpos) as Hp.
  rewrite (sign_passes _ _ _ Hp).
  assert (Save (SignerPackage := SpecSignState decode)
            (setEphemeralPublic (ephemeralPublicOf arr) (lastSignState w)) (stateFile w)
            (recordOf req hrst w arr)
          = (mkSignState (hrst_Height hrst) (hrst_Round hrst) (hrst_Step hrst)
               (ephemeralPublicOf arr) (signatureOf req w arr) (SignBytes req),
             mkSignState (hrst_Height hrst) (hrst_Round hrst) (hrst_Step hrst)
               (ephemeralPublicOf arr) (signatureOf req w arr) (SignBytes req),
             None)) as HS.
  { simpl. unfold Save_spec. simpl.
    destruct Hpos as [Hgt|(Heq & Hne & _)].
    - apply compareHRS_Gt in Hgt. rewrite Hgt. reflexivity.
    - apply compareHRS_Eq in Heq. rewrite Heq. unfold bytes_Equal.
      rewrite bool_decide_eq_false_2 by exact Hne. reflexivity. }
  erewrite (signFresh_in_bounds (pkg := SpecSignState decode) req hrst
              (set_threshold t w) arr); [| exact Hh | exact Hl | exact Hc | exact HS].
  simpl. eexists. split; [reflexivity|]. simpl. auto.
Qed.

End SpecFacts.

(** ** The engine on concrete inputs *)

Module SampleFacts.
Import Sample.
#[local] Existing Instance toyPrimitives.
#[local] Existing Instance toyPkg.

Lemma run_eq {A} (m : M A) (w : World) : m w = (result m w, after m w).
Proof. unfold result, after. destruct (m w); reflexivity. Defined.

Lemma hasShares_dealt10 : hasShares dealt10 hrst10 slots10.
Proof. exists meta10. split; vm_compute; reflexivity. Defined.

Lemma sign_regression_refused_witness :
  UnpackHRST (SignBytes signRequest10_step1) = inr (mkHRSTKey 10 0 1 7)
  /\ belowRecorded (mkHRSTKey 10 0 1 7) (lastSignState signed10)
  /\ sign signRequest10_step1 signed10 = (Err RegressionError, signed10).
Proof.
  assert (belowRecorded (mkHRSTKey 10 0 1 7) (lastSignState signed10)) as Hlt.
  { right. split; [vm_compute; reflexivity|]. right. split; vm_compute; reflexivity. }
  split; [vm_compute; reflexivity|]. split; [exact Hlt|].
  refine (proj1 (sign_regression_refused toyDecode signRequest10_step1 signed10
                   (mkHRSTKey 10 0 1 7) _ Hlt)).
  vm_compute; reflexivity.
Defined.

Lemma sign_conflict_refused_witness :
  atRecorded hrst10 (lastSignState signed10)
  /\ differOutsideTimestamp (mkCanonicalVote 2 10 0 [x01] 7 [])
                            (mkCanonicalVote 2 10 0 [x02] 7 [])
  /\ sign signRequest10_otherBlock signed10 = (Err ConflictingDataError, signed10).
Proof.
  assert (atRecorded hrst10 (lastSignState signed10)) as Heq.
  { split; [vm_compute; reflexivity|]. split; vm_compute; reflexivity. }
  assert (differOutsideTimestamp (mkCanonicalVote 2 10 0 [x01] 7 [])
                                 (mkCanonicalVote 2 10 0 [x02] 7 [])) as Hd.
  { right; right; right; left. simpl. discriminate. }
  split; [exact Heq|]. split; [exact Hd|].
  refine (sign_conflict_refused toyDecode signRequest10_otherBlock signed10 hrst10
            _ _ _ Heq _ _ Hd); vm_compute; reflexivity.
Defined.

Lemma sign_replay_idempotent_witness :
  atRecorded hrst10 (lastSignState signed10)
  /\ SignBytes signRequest10 = ss_SignBytes (lastSignState signed10)
  /\ sign signRequest10 signed10
     = (Ok (mkCosignerSignResponse (ss_EphemeralPublic (lastSignState signed10))
                                   (ss_Signature (lastSignState signed10))), signed10)
  /\ result (sign signRequest10) signed10 = result (sign signRequest10) dealt10.
Proof.
  assert (atRecorded hrst10 (lastSignState signed10)) as Heq.
  { split; [vm_compute; reflexivity|]. split; vm_compute; reflexivity. }
  assert (SignBytes signRequest10 = ss_SignBytes (lastSignState signed10)) as Hsb.
  { vm_compute; reflexivity. }
  split; [exact Heq|]. split; [exact Hsb|]. split.
  - refine (sign_replay_idempotent toyDecode signRequest10 signed10 hrst10 _ Heq Hsb).
    vm_compute; reflexivity.
  - vm_compute; reflexivity.
Defined.

Lemma sign_share_in_bounds_witness :
  (exists c, signCalls signed10 = signCalls dealt10 ++ [c]
             /\ call_ephemeralShare c = ephemeralShareOf slots10
             /\ length (call_ephemeralShare c) = 32%nat
             /\ ScMinimal (call_ephemeralShare c) = true)
  /\ ScMinimal (Primitives := unreducedPrimitives)
       (ephemeralShareOf (prim := unreducedPrimitives) slotsOverflow) = false
  /\ sign (prim := unreducedPrimitives) signRequest10 overflow10
     = (Err EphemeralShareOutOfBounds, overflow10).
Proof.
  split; [|split].
  - destruct (proj1 (sign_share_in_bounds signRequest10 dealt10 _ _
                       (run_eq (sign signRequest10) dealt10)))
      as [Hsame|(c & hrst & arr & Hcalls & Hp & Hh & Hc & Hl & Hm)].
    + exfalso. vm_compute in Hsame. discriminate Hsame.
    + exists c. split; [exact Hcalls|]. split; [|split; assumption].
      rewrite Hc. destruct Hp as [Hu _]. vm_compute in Hu.
      injection Hu as <-. destruct Hh as (meta & Hmeta & Harr).
      assert (meta = meta10) as -> by (vm_compute in Hmeta; vm_compute; congruence).
      assert (arr = slots10) as -> by (vm_compute in Harr; vm_compute; congruence).
      reflexivity.
  - vm_compute; reflexivity.
  - pose proof (run_eq (sign (prim := unreducedPrimitives) signRequest10) overflow10)
      as Hrun.
    destruct (proj2 (sign_share_in_bounds (prim := unreducedPrimitives)
                       signRequest10 overflow10 _ _ Hrun) hrst10 slotsOverflow)
      as [Hr Hw].
    + split; [vm_compute; reflexivity|]. exists false.
      split; [vm_compute; reflexivity|]. discriminate.
    + exists meta10. split; vm_compute; reflexivity.
    + right. vm_compute; reflexivity.
    + rewrite Hrun, Hr, Hw. reflexivity.
Defined.

Lemma dealShares_idempotent_witness :
  hrsMeta dealt10 !! hrstOfGet getRequest10 = Some meta10
  /\ dealShares getRequest10 dealt10 = (Ok meta10, dealt10).
Proof.
  assert (hrsMeta dealt10 !! hrstOfGet getRequest10 = Some meta10) as Hm
    by (vm_compute; reflexivity).
  split; [exact Hm|]. exact (proj1 (dealShares_idempotent getRequest10 dealt10 meta10 Hm)).
Defined.

(** C6, as the specification states it, fails on the replay path.  Cosigner
    1 has signed round (10, 0, 2) and was then asked for a share of round
    (5, 0, 2), which created metadata for it.  The repeated request to sign
    round 10 returns the recorded signature, so it succeeds, and the
    metadata of round 5, a key below the HRST of the request, is still in
    [hrsMeta] after the call. *)
Lemma sign_replay_keeps_lower_metadata :
  sign signRequest10 signed10_dealt5
  = (Ok (mkCosignerSignResponse (ss_EphemeralPublic (lastSignState signed10))
                                (ss_Signature (lastSignState signed10))),
     signed10_dealt5)
  /\ UnpackHRST (SignBytes signRequest10) = inr hrst10
  /\ Less hrst5 hrst10 = true
  /\ is_Some (hrsMeta (after (sign signRequest10) signed10_dealt5) !! hrst5).
Proof.
  split; [vm_compute; reflexivity|]. split; [vm_compute; reflexivity|].
  split; [vm_compute; reflexivity|].
  destruct (hrsMeta (after (sign signRequest10) signed10_dealt5) !! hrst5) eqn:Hk.
  - eexists; reflexivity.
  - vm_compute in Hk. discriminate Hk.
Qed.

Lemma sign_fresh_drops_lower_witness :
  is_Some (hrsMeta dealt5and10 !! hrst5)
  /\ ~ isReplay signRequest10 dealt5and10 hrst10
  /\ Less hrst5 hrst10 = true
  /\ result (sign signRequest10) dealt5and10 = result (sign signRequest10) dealt10
  /\ hrsMeta (after (sign signRequest10) dealt5and10) !! hrst5 = None.
Proof.
  assert (~ isReplay signRequest10 dealt5and10 hrst10) as Hnr.
  { intros [Hc _]. vm_compute in Hc. discriminate Hc. }
  assert (Less hrst5 hrst10 = true) as Hless by (vm_compute; reflexivity).
  split.
  { destruct (hrsMeta dealt5and10 !! hrst5) eqn:Hk; [eexists; reflexivity|].
    vm_compute in Hk. discriminate Hk. }
  split; [exact Hnr|]. split; [exact Hless|]. split; [vm_compute; reflexivity|].
  pose proof (run_eq (sign signRequest10) dealt5and10) as Hrun.
  destruct (result (sign signRequest10) dealt5and10) as [res|e|msg] eqn:Hres.
  - refine (sign_fresh_drops_lower signRequest10 dealt5and10 res _ hrst10 Hrun _ Hnr
              hrst5 Hless).
    vm_compute; reflexivity.
  - vm_compute in Hres. discriminate Hres.
  - vm_compute in Hres. discriminate Hres.
Defined.

Lemma setEphemeralSecretPart_authenticated_witness :
  setEphemeralSecretPart setRequest10_unsigned world0 = (Err MissingSignature, world0)
  /\ setEphemeralSecretPart setRequest10_forged world0
     = (Err (LibError "crypto/rsa: verification error"), world0)
  /\ result (setEphemeralSecretPart setRequest10) world0 = Ok tt
  /\ sourceVerified setRequest10 world0.
Proof.
  split; [|split; [|split]].
  - pose proof (run_eq (setEphemeralSecretPart setRequest10_unsigned) world0) as Hrun.
    destruct (proj1 (proj2 (setEphemeralSecretPart_authenticated _ _ _ _ Hrun)))
      as [Hr Hw]; [reflexivity|].
    rewrite Hrun, Hr, Hw. reflexivity.
  - pose proof (run_eq (setEphemeralSecretPart setRequest10_forged) world0) as Hrun.
    destruct (proj2 (proj2 (setEphemeralSecretPart_authenticated _ _ _ _ Hrun))
                (default [] (set_SourceSig setRequest10_forged))
                (match Marshal (digestMsgOf setRequest10_forged) with
                 | inr b => b
                 | inl _ => []
                 end)
                (mkCosignerPeer 1 (rsa_Public key1))
                (LibError "crypto/rsa: verification error"))
      as [Hr Hw]; [vm_compute; reflexivity..|].
    rewrite Hrun, Hr, Hw. reflexivity.
  - vm_compute; reflexivity.
  - pose proof (run_eq (setEphemeralSecretPart setRequest10) world0) as Hrun.
    apply (proj1 (setEphemeralSecretPart_authenticated _ _ _ _ Hrun)).
    left. vm_compute; reflexivity.
Defined.

Lemma sourceVerified_setRequest10 : sourceVerified setRequest10 world0.
Proof.
  exists (default [] (set_SourceSig setRequest10)),
         (match Marshal (digestMsgOf setRequest10) with inr b => b | inl _ => [] end),
         (mkCosignerPeer 2 (rsa_Public key2)).
  split; [vm_compute; reflexivity|]. split; [vm_compute; reflexivity|].
  split; vm_compute; reflexivity.
Defined.

(** C8, as the specification states it, fails on the value of the key.
    Cosigner 1 receives the envelope of cosigner 2 for round (10, 0, 2)
    before it has any metadata.  The dealer is called with the zero
    [time.Time], and the metadata it installs is not under the key with
    timestamp 0, which stays absent, but under the key whose timestamp is
    -6795364578871345152. *)
Lemma lazy_creation_not_under_timestamp_zero :
  sourceVerified setRequest10 world0
  /\ hrsMeta world0 !! hrstOfSet setRequest10 = None
  /\ result (setEphemeralSecretPart setRequest10) world0 = Ok tt
  /\ (let w1 := after (dealShares (dealRequestOfSet setRequest10)) world0 in
      hrsMeta w1 !! mkHRSTKey 10 0 2 0 = None
      /\ is_Some (hrsMeta w1 !! mkHRSTKey 10 0 2 (-6795364578871345152)))
  /\ hrsMeta (after (setEphemeralSecretPart setRequest10) world0) !! mkHRSTKey 10 0 2 0
     = None
  /\ (map_to_list (hrsMeta (after (setEphemeralSecretPart setRequest10) world0))).*1
     = [mkHRSTKey 10 0 2 (-6795364578871345152); mkHRSTKey 10 0 2 7].
Proof.
  split; [exact sourceVerified_setRequest10|].
  split; [vm_compute; reflexivity|]. split; [vm_compute; reflexivity|].
  split; [|split; vm_compute; reflexivity].
  split; [vm_compute; reflexivity|].
  destruct (hrsMeta (after (dealShares (dealRequestOfSet setRequest10)) world0)
              !! mkHRSTKey 10 0 2 (-6795364578871345152)) eqn:Hk.
  - eexists; reflexivity.
  - vm_compute in Hk. discriminate Hk.
Qed.

Lemma lazy_creation_keys_witness :
  (exists meta,
     hrsMeta (after (setEphemeralSecretPart setRequest10) world0)
       !! mkHRSTKey 10 0 2 (-6795364578871345152) = Some meta
     /\ hrsMeta (after (setEphemeralSecretPart setRequest10) world0)
          !! hrstOfSet setRequest10 = Some meta)
  /\ (exists meta, hrsMeta dealt10 !! hrstOfGet getRequest10 = Some meta).
Proof.
  destruct lazy_creation_keys as (_ & Hset & Hget). split.
  - specialize (Hset setRequest10 world0 sourceVerified_setRequest10).
    destruct (dealShares _ world0) as [[meta|e|msg] w1] eqn:Hd.
    + destruct Hset as [Hk Hafter]; [vm_compute; reflexivity|].
      exists meta. unfold after. rewrite Hafter. split.
      * rewrite lookup_insert_ne; [exact Hk|]. vm_compute. discriminate.
      * apply lookup_insert_eq.
    + vm_compute in Hd. discriminate Hd.
    + vm_compute in Hd. discriminate Hd.
  - specialize (Hget getRequest10 world0).
    destruct (dealShares _ world0) as [[meta|e|msg] w1] eqn:Hd.
    + destruct Hget as [Hk Hafter]; [vm_compute; reflexivity|].
      exists meta. unfold dealt10, after. rewrite Hafter. exact Hk.
    + vm_compute in Hd. discriminate Hd.
    + vm_compute in Hd. discriminate Hd.
Defined.

Lemma sign_ignores_threshold_witness :
  hasShares dealt10 hrst10 slots10
  /\ populated slots10 = 1%nat
  /\ (exists w',
        sign signRequest10 (set_threshold 2 dealt10)
        = (Ok (mkCosignerSignResponse (ephemeralPublicOf slots10)
                                      (signatureOf signRequest10 dealt10 slots10)), w')
        /\ ss_Signature (stateFile w') = signatureOf signRequest10 dealt10 slots10)
  /\ (exists w',
        sign signRequest10 (set_threshold 200 dealt10)
        = (Ok (mkCosignerSignResponse (ephemeralPublicOf slots10)
                                      (signatureOf signRequest10 dealt10 slots10)), w')
        /\ ss_Signature (stateFile w') = signatureOf signRequest10 dealt10 slots10).
Proof.
  assert (aboveRecorded hrst10 (lastSignState dealt10)) as Hgt.
  { left. vm_compute; reflexivity. }
  split; [exact hasShares_dealt10|]. split; [vm_compute; reflexivity|].
  split.
  - destruct (sign_ignores_threshold toyDecode signRequest10 dealt10 hrst10 slots10 2)
      as (w' & Hs & Hf & _); try (vm_compute; reflexivity);
      [left; exact Hgt | exact hasShares_dealt10 |].
    exists w'. split; [exact Hs|]. rewrite Hf. reflexivity.
  - destruct (sign_ignores_threshold toyDecode signRequest10 dealt10 hrst10 slots10 200)
      as (w' & Hs & Hf & _); try (vm_compute; reflexivity);
      [left; exact Hgt | exact hasShares_dealt10 |].
    exists w'. split; [exact Hs|]. rewrite Hf. reflexivity.
Defined.

Lemma sign_save_failure_not_atomic_witness :
  ss_EphemeralPublic (lastSignState dealt10) = []
  /\ ephemeralPublicOf slots10 <> []
  /\ exists w',
       sign (pkg := brokenDisk) signRequest10 dealt10
       = (Err (LibError "write sign state: no space left"), w')
       /\ ss_EphemeralPublic (lastSignState w') = ephemeralPublicOf slots10
       /\ stateFile w' = stateFile dealt10.
Proof.
  split; [vm_compute; reflexivity|]. split; [vm_compute; discriminate|].
  destruct (sign_save_failure_not_atomic (pkg := brokenDisk) signRequest10 dealt10
              hrst10 slots10
              (setEphemeralPublic (ephemeralPublicOf slots10) (lastSignState dealt10))
              (stateFile dealt10) (LibError "write sign state: no space left"))
    as (w' & Hs & Hl & He & _).
  - intros s f c s1 f1 e1 HS. simpl in HS. injection HS as <- _ _. reflexivity.
  - split; [vm_compute; reflexivity|]. exists false.
    split; [vm_compute; reflexivity|]. discriminate.
  - exact hasShares_dealt10.
  - vm_compute; reflexivity.
  - vm_compute; reflexivity.
  - reflexivity.
  - reflexivity.
  - exists w'. split; [exact Hs|]. split; [exact He|].
    pose proof (run_eq (sign (pkg := brokenDisk) signRequest10) dealt10) as Hrun.
    rewrite Hs in Hrun.
    assert (w' = after (sign (pkg := brokenDisk) signRequest10) dealt10) as ->
      by exact (f_equal snd Hrun).
    vm_compute; reflexivity.
Defined.

End SampleFacts.

(** * Further properties of the engine *)

Section MoreSignFacts.
Context {prim : Primitives} {pkg : SignerPackage}.

(** Every call of [sign] either leaves the world as it is, returning an
    error, a panic or the recorded signature, or it signs afresh and goes
    through [Save]. *)
Lemma sign_cases req w :
  ((sign req w).2 = w
   /\ forall res, (sign req w).1 = Ok res ->
        exists hrst, UnpackHRST (SignBytes req) = inr hrst /\ isReplay req w hrst
          /\ res = mkCosignerSignResponse (ss_EphemeralPublic (lastSignState w))
                                          (ss_Signature (lastSignState w)))
  \/ exists hrst arr s' f' err,
       passesHRS req w hrst /\ hasShares w hrst arr
       /\ length (ephemeralShareOf arr) = 32%nat
       /\ ScMinimal (ephemeralShareOf arr) = true
       /\ Save (setEphemeralPublic (ephemeralPublicOf arr) (lastSignState w))
               (stateFile w) (recordOf req hrst w arr) = (s', f', err)
       /\ sign req w =
            let w3 := set_stateFile f' (set_lastSignState s'
                        (set_signCalls (signCalls w ++ [callOf req w arr]) w)) in
            let done := (Ok (mkCosignerSignResponse (ephemeralPublicOf arr)
                                                    (signatureOf req w arr)),
                         set_hrsMeta (deleteLower hrst (hrsMeta w)) w3) in
            match err with
            | Some e => if isSameHRSError e then done else (Err e, w3)
            | None => done
            end.
Proof.
  destruct (sign_paths req w) as [(e & He & _)|[(hrst & Hu & Hr)|(hrst & Hp)]].
  - left. rewrite He. split; [reflexivity|]. discriminate.
  - left. rewrite (sign_replay _ _ _ Hu Hr). split; [reflexivity|].
    intros res [= <-]. exists hrst. auto.
  - rewrite (sign_passes _ _ _ Hp).
    destruct (hrsMeta w !! hrst) as [meta|] eqn:Hm.
    2:{ left. rewrite (signFresh_no_metadata _ _ _ Hm). split; [reflexivity|].
        discriminate. }
    destruct (peerArrays w !! Peers meta) as [arr|] eqn:Ha.
    2:{ left. rewrite (signFresh_dangling _ _ _ _ Hm Ha). split; [reflexivity|].
        discriminate. }
    assert (hasShares w hrst arr) as Hh by (exists meta; auto).
    destruct (decide (length (ephemeralShareOf arr) = 32%nat)) as [Hl|Hl].
    2:{ left. rewrite (signFresh_out_of_bounds _ _ _ _ Hh) by auto.
        split; [reflexivity|]. discriminate. }
    destruct (ScMinimal (ephemeralShareOf arr)) eqn:Hc.
    2:{ left. rewrite (signFresh_out_of_bounds _ _ _ _ Hh) by auto.
        split; [reflexivity|]. discriminate. }
    destruct (Save (setEphemeralPublic (ephemeralPublicOf arr) (lastSignState w))
                   (stateFile w) (recordOf req hrst w arr)) as [[s' f'] err] eqn:HS.
    right. exists hrst, arr, s', f', err.
    split; [exact Hp|]. split; [exact Hh|]. split; [exact Hl|]. split; [exact Hc|].
    split; [exact HS|].
    apply (signFresh_in_bounds _ _ _ _ _ _ _ Hh Hl Hc HS).
Qed.

(** The loop of [sign] over the peer slots, with its accumulators. *)
Lemma collectParts_acc arr shareParts publicKeys :
  collectParts arr shareParts publicKeys
  = (shareParts ++ (Share <$> populatedSlots arr),
     publicKeys ++ (EphemeralSecretPublicKey <$> populatedSlots arr)).
Proof.
  revert shareParts publicKeys.
  induction arr as [|peer rest IH]; intros shareParts publicKeys; simpl.
  - rewrite !app_nil_r. reflexivity.
  - unfold populatedSlots. rewrite filter_cons.
    destruct (Nat.eqb_spec (length (Share peer)) 0) as [Hz|Hnz].
    + rewrite decide_False by (intros Hne; apply Hne; exact Hz). apply IH.
    + rewrite decide_True by exact Hnz. rewrite IH. simpl.
      rewrite <- !app_assoc. reflexivity.
Qed.

(** X1. The loop of [sign] collects, in slot order, the share and the public
    key of exactly the slots whose share is not empty: the two lists go
    pairwise and have as many elements as there are populated slots, and a
    slot with an empty share contributes nothing, whatever its public
    key. *)
Theorem collectParts_populated arr :
  collectParts arr [] []
  = (Share <$> populatedSlots arr, EphemeralSecretPublicKey <$> populatedSlots arr)
  /\ length (collectParts arr [] []).1 = populated arr
  /\ length (collectParts arr [] []).2 = populated arr
  /\ forall i pub,
       collectParts (<[i := mkPeerMetadata [] pub]> arr) [] []
       = collectParts (<[i := mkPeerMetadata [] []]> arr) [] [].
Proof.
  rewrite collectParts_acc. simpl. split; [reflexivity|].
  unfold populated, populatedSlots. rewrite !length_fmap.
  split; [reflexivity|]. split; [reflexivity|].
  intros i pub. rewrite !collectParts_acc. simpl.
  assert (populatedSlots (<[i := mkPeerMetadata [] pub]> arr)
          = populatedSlots (<[i := mkPeerMetadata [] []]> arr)) as ->; [|reflexivity].
  unfold populatedSlots. revert i.
  induction arr as [|p rest IH]; intros [|i]; simpl; try reflexivity.
  rewrite !filter_cons, (IH i). reflexivity.
Qed.

(** X2. A request that gets past the checks of the HRS but finds no metadata
    under its HRST, timestamp included, fails with "no metadata at HRS"
    and changes nothing. *)
Theorem sign_without_metadata req w hrst :
  passesHRS req w hrst ->
  hrsMeta w !! hrst = None ->
  sign req w = (Err NoMetadataForHRS, w).
Proof.
  intros Hp Hm. rewrite (sign_passes _ _ _ Hp). apply signFresh_no_metadata, Hm.
Qed.

(** X3. [sign] never writes a peer slot, draws no randomness and leaves the
    configuration alone, whatever it returns. *)
Theorem sign_frame req w :
  peerArrays (sign req w).2 = peerArrays w
  /\ entropy (sign req w).2 = entropy w
  /\ sameConfig w (sign req w).2.
Proof.
  destruct (sign_cases req w) as [[Hw _]|(hrst & arr & s' & f' & err & _ & _ & _ & _ & _ & Hs)].
  - rewrite Hw. unfold sameConfig. auto 10.
  - rewrite Hs. unfold sameConfig.
    destruct err as [e|]; [destruct (isSameHRSError e)|]; simpl; auto 10.
Qed.

(** X4. A call of [sign] that does not return success leaves [hrsMeta] as it
    is: metadata is only collected once the signature is recorded. *)
Theorem sign_failure_keeps_metadata req w r w' :
  sign req w = (r, w') ->
  (forall res, r <> Ok res) ->
  hrsMeta w' = hrsMeta w.
Proof.
  intros Hs Hr.
  destruct (sign_cases req w) as [[Hw _]|(hrst & arr & s' & f' & err & _ & _ & _ & _ & _ & Hs')].
  - rewrite Hs in Hw. simpl in Hw. rewrite Hw. reflexivity.
  - rewrite Hs' in Hs.
    destruct err as [e|]; [destruct (isSameHRSError e)|]; simpl in Hs;
      injection Hs as <- <-; try reflexivity; exfalso; eapply Hr; reflexivity.
Qed.

(** X5. [sign] adds nothing to [hrsMeta] and changes no entry, and it keeps
    every entry whose key is not below the HRST of the request: only
    lower keys can go. *)
Theorem sign_keeps_not_lower req w hrst :
  UnpackHRST (SignBytes req) = inr hrst ->
  hrsMeta (sign req w).2 ⊆ hrsMeta w
  /\ forall k, Less k hrst = false ->
       hrsMeta (sign req w).2 !! k = hrsMeta w !! k.
Proof.
  intros Hu.
  destruct (sign_cases req w) as [[Hw _]|(hrst' & arr & s' & f' & err & Hp & _ & _ & _ & _ & Hs)].
  - rewrite Hw. split; [reflexivity|]. reflexivity.
  - assert (hrst' = hrst) as -> by (destruct Hp; congruence).
    assert (hrsMeta (sign req w).2 = hrsMeta w
            \/ hrsMeta (sign req w).2 = deleteLower hrst (hrsMeta w)) as [->| ->].
    { rewrite Hs. destruct err as [e|]; [destruct (isSameHRSError e)|]; simpl; auto. }
    + split; reflexivity.
    + split.
      * apply map_subseteq_spec. intros k v. rewrite deleteLower_lookup.
        destruct (Less k hrst); [discriminate|auto].
      * intros k Hk. rewrite deleteLower_lookup, Hk. reflexivity.
Qed.

(** X6. When [Save] answers [SameHRSError], [sign] carries on as after a
    success: it returns the aggregate and the signature it has just
    computed, keeps the state [Save] left and collects the lower
    metadata. *)
Theorem sign_same_hrs_error_is_success req w hrst arr s' f' e :
  passesHRS req w hrst ->
  hasShares w hrst arr ->
  length (ephemeralShareOf arr) = 32%nat ->
  ScMinimal (ephemeralShareOf arr) = true ->
  Save (setEphemeralPublic (ephemeralPublicOf arr) (lastSignState w)) (stateFile w)
       (recordOf req hrst w arr) = (s', f', Some e) ->
  isSameHRSError e = true ->
  exists w',
    sign req w = (Ok (mkCosignerSignResponse (ephemeralPublicOf arr)
                                             (signatureOf req w arr)), w')
    /\ lastSignState w' = s' /\ stateFile w' = f'
    /\ hrsMeta w' = deleteLower hrst (hrsMeta w).
Proof.
  intros Hp Hh Hl Hc HS He.
  rewrite (sign_passes _ _ _ Hp), (signFresh_in_bounds _ _ _ _ _ _ _ Hh Hl Hc HS).
  simpl. rewrite He. eexists. split; [reflexivity|]. simpl. auto.
Qed.

(** X7. What a successful [sign] returns: either the recorded pair, on a
    replay, with the world unchanged; or the sum of the public keys of the
    populated slots with the signature of one logged call of
    [SignWithShare] on the sum of their shares. *)
Theorem sign_success_cases req w res w' :
  sign req w = (Ok res, w') ->
  exists hrst, UnpackHRST (SignBytes req) = inr hrst /\
    ((isReplay req w hrst /\ w' = w
      /\ res = mkCosignerSignResponse (ss_EphemeralPublic (lastSignState w))
                                      (ss_Signature (lastSignState w)))
     \/ (passesHRS req w hrst /\ exists arr,
           hasShares w hrst arr
           /\ res = mkCosignerSignResponse
                      (AddElements (EphemeralSecretPublicKey <$> populatedSlots arr))
                      (SignWithShare (SignBytes req) (key_ShareKey (key w))
                         (AddScalars (Share <$> populatedSlots arr)) (pubKeyBytes w)
                         (AddElements (EphemeralSecretPublicKey <$> populatedSlots arr)))
           /\ signCalls w' = signCalls w ++ [callOf req w arr])).
Proof.
  intros Hs.
  destruct (sign_cases req w) as [[Hw Hres]|(hrst & arr & s' & f' & err & Hp & Hh & _ & _ & _ & Hs')].
  - rewrite Hs in Hw, Hres. simpl in *. destruct (Hres res eq_refl) as (hrst & Hu & Hr & ->).
    exists hrst. split; [exact Hu|]. left. auto.
  - exists hrst. split; [destruct Hp; assumption|]. right. split; [exact Hp|].
    exists arr. split; [exact Hh|].
    assert (mkCosignerSignResponse (ephemeralPublicOf arr) (signatureOf req w arr)
            = mkCosignerSignResponse
                (AddElements (EphemeralSecretPublicKey <$> populatedSlots arr))
                (SignWithShare (SignBytes req) (key_ShareKey (key w))
                   (AddScalars (Share <$> populatedSlots arr)) (pubKeyBytes w)
                   (AddElements (EphemeralSecretPublicKey <$> populatedSlots arr))))
      as Hresp.
    { unfold signatureOf, ephemeralPublicOf, ephemeralShareOf.
      rewrite collectParts_acc. reflexivity. }
    rewrite Hs' in Hs.
    destruct err as [e|]; [destruct (isSameHRSError e)|]; simpl in Hs;
      try discriminate; injection Hs as <- <-; rewrite Hresp; split; reflexivity.
Qed.

End MoreSignFacts.

Section MoreShareFacts.
Context {prim : Primitives} {pkg : SignerPackage}.

(** *** dealShares *)



(** *** The size of the peer arrays is an invariant *)

Create HintDb sized.

Lemma keepsSized_bind {A B} (m : M A) (k : A -> M B) :
  keepsSized m -> (forall a, keepsSized (k a)) -> keepsSized (m ≫= k).
Proof.
  intros Hm Hk w Hw. unfold_monad. specialize (Hm w Hw).
  destruct (m w) as [[a|e|msg] w1]; simpl in *; [|assumption..].
  apply (Hk a w1 Hm).
Qed.

Lemma keepsSized_ret {A} (a : A) : keepsSized (mret a).
Proof. intros w Hw. exact Hw. Qed.
Lemma keepsSized_fail {A} e : keepsSized (@fail A e).
Proof. intros w Hw. exact Hw. Qed.
Lemma keepsSized_panic {A} msg : keepsSized (@panic A msg).
Proof. intros w Hw. exact Hw. Qed.
Lemma keepsSized_gets {A} (f : World -> A) : keepsSized (gets f).
Proof. intros w Hw. exact Hw. Qed.
Lemma keepsSized_orReturn {A} (r : error + A) : keepsSized (orReturn r).
Proof. intros w Hw. destruct r; exact Hw. Qed.
Lemma keepsSized_returnIf r : keepsSized (returnIf r).
Proof. intros w Hw. destruct r; exact Hw. Qed.
Lemma keepsSized_set_entropy t : keepsSized (modify (set_entropy t)).
Proof. intros w Hw. exact Hw. Qed.

#[local] Hint Resolve keepsSized_ret keepsSized_fail keepsSized_panic keepsSized_gets
  keepsSized_orReturn keepsSized_returnIf keepsSized_set_entropy : sized.

Ltac sized :=
  repeat first
    [ progress (intros)
    | solve [auto with sized]
    | apply keepsSized_bind
    | match goal with
      | |- keepsSized (match ?x with _ => _ end) => destruct x
      | |- keepsSized (if ?b then _ else _) => destruct b
      end ].

Lemma keepsSized_index {A} (l : list A) i : keepsSized (index l i).
Proof. unfold index. sized. Qed.

Lemma keepsSized_withEntropy {A} (f : bytes -> A * bytes) : keepsSized (withEntropy f).
Proof. unfold withEntropy. sized. Qed.

#[local] Hint Resolve keepsSized_index keepsSized_withEntropy : sized.

Lemma keepsSized_setPeerSlot meta i share pub :
  keepsSized (setPeerSlot meta i share pub).
Proof.
  intros w Hw. unfold setPeerSlot, peersOf, index. unfold_monad.
  destruct (peerArrays w !! Peers meta) as [arr|] eqn:Harr; [|exact Hw]. simpl.
  case_bool_decide; [|exact Hw].
  destruct (arr !! Z.to_nat i); [|exact Hw]. simpl.
  intros k meta0 Hk. simpl in Hk. destruct (Hw k meta0 Hk) as (arr0 & Ha0 & Hl0).
  simpl. destruct (decide (Peers meta = Peers meta0)) as [Heq|Hne].
  - rewrite <- Heq in *. rewrite Harr in Ha0. injection Ha0 as <-.
    eexists. split.
    + apply list_lookup_insert_eq. apply lookup_lt_Some in Harr. exact Harr.
    + rewrite length_insert. exact Hl0.
  - exists arr0. split; [|exact Hl0].
    rewrite list_lookup_insert_ne by exact Hne. exact Ha0.
Qed.

Lemma keepsSized_dealShares req : keepsSized (dealShares req).
Proof.
  intros w Hw. unfold dealShares, rand_Read, makePeers, withEntropy. unfold_monad.
  destruct (hrsMeta w !! hrstOfGet req) as [meta|] eqn:Hm; simpl; [exact Hw|].
  case_bool_decide; simpl; [|exact Hw].
  intros k meta0 Hk. simpl in *.
  destruct (decide (hrstOfGet req = k)) as [<-|Hne].
  - rewrite lookup_insert_eq in Hk. injection Hk as <-. simpl.
    eexists. split.
    + rewrite lookup_app_r by reflexivity. rewrite Nat.sub_diag. reflexivity.
    + apply length_replicate.
  - rewrite lookup_insert_ne in Hk by exact Hne.
    destruct (Hw k meta0 Hk) as (arr0 & Ha0 & Hl0). exists arr0.
    split; [apply lookup_app_l_Some; exact Ha0|exact Hl0].
Qed.

Lemma keepsSized_lookupOrDeal hrst dealReq : keepsSized (lookupOrDeal hrst dealReq).
Proof.
  intros w Hw. unfold lookupOrDeal. unfold_monad.
  destruct (hrsMeta w !! hrst) as [meta|] eqn:Hm; [exact Hw|].
  pose proof (keepsSized_dealShares dealReq w Hw) as Hw1.
  destruct (dealShares dealReq w) as [[meta|e|msg] w1] eqn:Hd; simpl in *;
    [|exact Hw1..].
  pose proof (dealShares_installs _ _ _ _ Hd) as Hin.
  intros k meta0 Hk. simpl in *.
  destruct (decide (hrst = k)) as [<-|Hne].
  - rewrite lookup_insert_eq in Hk. injection Hk as <-. exact (Hw1 _ _ Hin).
  - rewrite lookup_insert_ne in Hk by exact Hne. exact (Hw1 _ _ Hk).
Qed.

#[local] Hint Resolve keepsSized_setPeerSlot keepsSized_dealShares
  keepsSized_lookupOrDeal : sized.

Lemma keepsSized_getEphemeralSecretPart req : keepsSized (getEphemeralSecretPart req).
Proof. unfold getEphemeralSecretPart, answerWithPart. sized. Qed.

Lemma keepsSized_verifySource req : keepsSized (verifySource req).
Proof. intros w Hw. rewrite verifySource_frame. exact Hw. Qed.

#[local] Hint Resolve keepsSized_verifySource : sized.

Lemma keepsSized_setEphemeralSecretPart req : keepsSized (setEphemeralSecretPart req).
Proof. unfold setEphemeralSecretPart, storeSharePart. sized. Qed.

Lemma keepsSized_sign req : keepsSized (sign req).
Proof.
  intros w Hw.
  destruct (sign_cases req w)
    as [[Hs _]|(hrst & arr & s' & f' & err & _ & _ & _ & _ & _ & Hs)].
  - rewrite Hs. exact Hw.
  - rewrite Hs.
    assert (forall w3, hrsMeta w3 = hrsMeta w -> peerArrays w3 = peerArrays w ->
              total w3 = total w -> slotsSized w3) as Hsame.
    { intros w3 Hm Hp Ht k meta Hk. rewrite Hm in Hk. rewrite Hp, Ht. exact (Hw k meta Hk). }
    assert (forall w3, hrsMeta w3 = deleteLower hrst (hrsMeta w) ->
              peerArrays w3 = peerArrays w -> total w3 = total w -> slotsSized w3)
      as Hgc.
    { intros w3 Hm Hp Ht k meta Hk. rewrite Hm, deleteLower_lookup in Hk.
      destruct (Less k hrst); [discriminate|]. rewrite Hp, Ht. exact (Hw k meta Hk). }
    destruct err as [e|]; [destruct (isSameHRSError e)|]; simpl;
      first [apply Hgc; reflexivity | apply Hsame; reflexivity].
Qed.

Lemma slotsSized_same w w' :
  hrsMeta w' = hrsMeta w -> peerArrays w' = peerArrays w -> total w' = total w ->
  slotsSized w -> slotsSized w'.
Proof.
  intros Hm Hp Ht Hw k meta Hk. rewrite Hm in Hk. rewrite Hp, Ht. exact (Hw k meta Hk).
Qed.

(** X9. Every operation of the engine keeps the invariant that each metadata
    of [hrsMeta] refers to an existing array of exactly [total] peer
    slots, whatever the request and whatever the operation returns; the
    invariant holds when the map is empty. *)
Theorem slotsSized_invariant w :
  (hrsMeta w = ∅ -> slotsSized w)
  /\ (slotsSized w ->
      (forall req, slotsSized (dealShares req w).2)
      /\ (forall req, slotsSized (getEphemeralSecretPart req w).2)
      /\ (forall req, slotsSized (setEphemeralSecretPart req w).2)
      /\ (forall req, slotsSized (sign req w).2)).
Proof.
  split.
  - intros He k meta Hk. rewrite He, lookup_empty in Hk. discriminate.
  - intros Hw. split; [|split; [|split]]; intros req.
    + apply keepsSized_dealShares, Hw.
    + apply keepsSized_getEphemeralSecretPart, Hw.
    + apply keepsSized_setEphemeralSecretPart, Hw.
    + apply keepsSized_sign, Hw.
Qed.

(** X8. In a world where every metadata of [hrsMeta] refers to an existing
    array of [total] peer slots, [sign] does not panic: it returns a
    response or an error. *)
Theorem sign_no_panic_sized req w msg :
  slotsSized w -> (sign req w).1 <> Panic msg.
Proof.
  intros Hw.
  destruct (sign_paths req w) as [(e & He & _)|[(hrst & Hu & Hr)|(hrst & Hp)]].
  - rewrite He. discriminate.
  - rewrite (sign_replay _ _ _ Hu Hr). discriminate.
  - destruct (sign_cases req w)
      as [[Hs _]|(hrst' & arr & s' & f' & err & _ & _ & _ & _ & _ & Hs)].
    + rewrite (sign_passes _ _ _ Hp) in *.
      destruct (hrsMeta w !! hrst) as [meta|] eqn:Hm.
      2:{ rewrite (signFresh_no_metadata _ _ _ Hm). discriminate. }
      destruct (Hw _ _ Hm) as (arr & Ha & _).
      assert (hasShares w hrst arr) as Hh by (exists meta; auto).
      destruct (decide (length (ephemeralShareOf arr) = 32%nat)) as [Hl|Hl].
      2:{ rewrite (signFresh_out_of_bounds _ _ _ _ Hh) by auto. discriminate. }
      destruct (ScMinimal (ephemeralShareOf arr)) eqn:Hc.
      2:{ rewrite (signFresh_out_of_bounds _ _ _ _ Hh) by auto. discriminate. }
      destruct (Save (setEphemeralPublic (ephemeralPublicOf arr) (lastSignState w))
                     (stateFile w) (recordOf req hrst w arr)) as [[s' f'] err] eqn:HS.
      rewrite (signFresh_in_bounds _ _ _ _ _ _ _ Hh Hl Hc HS).
      destruct err as [e|]; [destruct (isSameHRSError e)|]; discriminate.
    + rewrite Hs. destruct err as [e|]; [destruct (isSameHRSError e)|]; discriminate.
Qed.

(** *** Indexing and the writes to a peer slot *)

Lemma index_in_range {A} (l : list A) i w :
  inRange i (length l) ->
  exists a, l !! Z.to_nat i = Some a /\ index l i w = (Ok a, w).
Proof.
  intros [Hlo Hhi]. unfold index.
  rewrite bool_decide_eq_true_2 by exact Hlo.
  destruct (l !! Z.to_nat i) as [a|] eqn:Hl.
  - exists a. split; reflexivity.
  - apply lookup_ge_None in Hl. lia.
Qed.

Lemma index_out_of_range {A} (l : list A) i w :
  ~ inRange i (length l) -> index l i w = (Panic "index out of range", w).
Proof.
  intros Hout. unfold index. case_bool_decide as Hlo; [|reflexivity].
  destruct (l !! Z.to_nat i) as [a|] eqn:Hl; [|reflexivity].
  exfalso. apply Hout. apply lookup_lt_Some in Hl. unfold inRange. lia.
Qed.

Lemma index_inv {A} (l : list A) i w a w' :
  index l i w = (Ok a, w') -> w' = w /\ inRange i (length l) /\ l !! Z.to_nat i = Some a.
Proof.
  unfold index. case_bool_decide as Hlo; [|discriminate].
  destruct (l !! Z.to_nat i) as [a0|] eqn:Hl; [|discriminate].
  intros [= <- <-]. split; [reflexivity|]. split; [|reflexivity].
  apply lookup_lt_Some in Hl. unfold inRange. lia.
Qed.

Lemma setPeerSlot_in_range meta arr i share pub w :
  peerArrays w !! Peers meta = Some arr ->
  inRange i (length arr) ->
  setPeerSlot meta i share pub w = (Ok tt, withSlot meta arr i share pub w).
Proof.
  intros Ha Hi. unfold setPeerSlot, peersOf. unfold_monad. rewrite Ha. simpl.
  destruct (index_in_range arr i w Hi) as (a & _ & ->). reflexivity.
Qed.

Lemma setPeerSlot_out_of_range meta arr i share pub w :
  peerArrays w !! Peers meta = Some arr ->
  ~ inRange i (length arr) ->
  setPeerSlot meta i share pub w = (Panic "index out of range", w).
Proof.
  intros Ha Hi. unfold setPeerSlot, peersOf. unfold_monad. rewrite Ha. simpl.
  rewrite (index_out_of_range arr i w Hi). reflexivity.
Qed.

Lemma setPeerSlot_inv meta i share pub w w' :
  setPeerSlot meta i share pub w = (Ok tt, w') ->
  exists arr, peerArrays w !! Peers meta = Some arr /\ inRange i (length arr)
              /\ w' = withSlot meta arr i share pub w.
Proof.
  unfold setPeerSlot, peersOf. unfold_monad.
  destruct (peerArrays w !! Peers meta) as [arr|] eqn:Ha; [|discriminate]. simpl.
  destruct (index arr i w) as [[a| |] w0] eqn:Hi; [|discriminate..].
  apply index_inv in Hi. destruct Hi as (-> & Hr & _).
  intros [= <-]. exists arr. auto.
Qed.

(** What a written slot looks like from the world: the slot holds the
    pair, the other slots of the array and the other arrays are as they
    were, and so is the map. *)
Lemma withSlot_reads meta arr i share pub w :
  peerArrays w !! Peers meta = Some arr ->
  inRange i (length arr) ->
  let w' := withSlot meta arr i share pub w in
  peerArrays w' !! Peers meta = Some (<[Z.to_nat i := mkPeerMetadata share pub]> arr)
  /\ <[Z.to_nat i := mkPeerMetadata share pub]> arr !! Z.to_nat i
     = Some (mkPeerMetadata share pub)
  /\ (forall j, j <> Z.to_nat i ->
        <[Z.to_nat i := mkPeerMetadata share pub]> arr !! j = arr !! j)
  /\ (forall l, l <> Peers meta -> peerArrays w' !! l = peerArrays w !! l)
  /\ hrsMeta w' = hrsMeta w.
Proof.
  intros Ha [Hlo Hhi]. simpl. split; [|split; [|split; [|split]]].
  - apply list_lookup_insert_eq. apply lookup_lt_Some in Ha. exact Ha.
  - apply list_lookup_insert_eq. lia.
  - intros j Hj. apply list_lookup_insert_ne. congruence.
  - intros l Hl. apply list_lookup_insert_ne. congruence.
  - reflexivity.
Qed.

Lemma lookupOrDeal_present hrst dealReq w meta :
  hrsMeta w !! hrst = Some meta -> lookupOrDeal hrst dealReq w = (Ok meta, w).
Proof.
  intros Hm. unfold lookupOrDeal. unfold_monad. rewrite Hm. reflexivity.
Qed.

Lemma lookupOrDeal_installs hrst dealReq w meta w1 :
  lookupOrDeal hrst dealReq w = (Ok meta, w1) -> hrsMeta w1 !! hrst = Some meta.
Proof.
  unfold lookupOrDeal. unfold_monad.
  destruct (hrsMeta w !! hrst) as [m|] eqn:Hm.
  - intros [= <- <-]. exact Hm.
  - destruct (dealShares dealReq w) as [[m|e|msg] w0]; [|discriminate..].
    intros [= <- <-]. simpl. apply lookup_insert_eq.
Qed.

(** The last block of [setEphemeralSecretPart], case by case. *)
Lemma storeSharePart_cases req meta w :
  match DecryptOAEP (entropy w) (rsaKey w) (set_EncryptedSharePart req) with
  | (inl e, tape') => storeSharePart req meta w = (Err e, set_entropy tape' w)
  | (inr share, tape') =>
      forall arr, peerArrays w !! Peers meta = Some arr ->
        (inRange (sub64 (set_SourceID req) 1) (length arr) ->
           storeSharePart req meta w
           = (Ok tt, withSlot meta arr (sub64 (set_SourceID req) 1) share
                       (set_SourceEphemeralSecretPublicKey req) (set_entropy tape' w)))
        /\ (~ inRange (sub64 (set_SourceID req) 1) (length arr) ->
              storeSharePart req meta w
              = (Panic "index out of range", set_entropy tape' w))
  end.
Proof.
  unfold storeSharePart, withEntropy. unfold_monad. simpl.
  destruct (DecryptOAEP (entropy w) (rsaKey w) (set_EncryptedSharePart req))
    as [[e|share] tape']; simpl; [reflexivity|].
  intros arr Ha. split; intros Hi.
  - rewrite (setPeerSlot_in_range meta arr) by assumption. reflexivity.
  - rewrite (setPeerSlot_out_of_range meta arr) by assumption. reflexivity.
Qed.

(** *** setEphemeralSecretPart *)

(** X12. An authenticated envelope whose share decrypts, for an HRST that has
    metadata, is stored: the slot of the source holds the decrypted share
    and the public key of the envelope, whatever it held before; no other
    slot, no other array and no entry of [hrsMeta] changes. *)
Theorem setEphemeralSecretPart_stores req w meta arr share tape' :
  sourceVerified req w ->
  hrsMeta w !! hrstOfSet req = Some meta ->
  peerArrays w !! Peers meta = Some arr ->
  DecryptOAEP (entropy w) (rsaKey w) (set_EncryptedSharePart req) = (inr share, tape') ->
  inRange (sub64 (set_SourceID req) 1) (length arr) ->
  let i := sub64 (set_SourceID req) 1 in
  let slot := mkPeerMetadata share (set_SourceEphemeralSecretPublicKey req) in
  exists w',
    setEphemeralSecretPart req w = (Ok tt, w')
    /\ peerArrays w' !! Peers meta = Some (<[Z.to_nat i := slot]> arr)
    /\ <[Z.to_nat i := slot]> arr !! Z.to_nat i = Some slot
    /\ (forall j, j <> Z.to_nat i -> <[Z.to_nat i := slot]> arr !! j = arr !! j)
    /\ (forall l, l <> Peers meta -> peerArrays w' !! l = peerArrays w !! l)
    /\ hrsMeta w' = hrsMeta w
    /\ entropy w' = tape'.
Proof.
  intros Hv Hm Ha Hd Hi i slot. apply verifySource_verified in Hv.
  rewrite (setEphemeralSecretPart_verified _ _ Hv).
  unfold mbind, M_bind, bind. rewrite (lookupOrDeal_present _ _ _ _ Hm).
  pose proof (storeSharePart_cases req meta w) as Hc. rewrite Hd in Hc.
  destruct (Hc arr Ha) as [Hok _]. rewrite (Hok Hi).
  eexists. split; [reflexivity|].
  destruct (withSlot_reads meta arr i share (set_SourceEphemeralSecretPublicKey req)
              (set_entropy tape' w) Ha Hi) as (H1 & H2 & H3 & H4 & H5).
  split; [exact H1|]. split; [exact H2|]. split; [exact H3|]. split; [exact H4|].
  split; [exact H5|reflexivity].
Qed.

(** X13. An authenticated envelope from a configured peer whose [SourceID] is
    not among 1 .. [total] makes [setEphemeralSecretPart] panic on the
    slot index, after the share has been decrypted. *)
Theorem setEphemeralSecretPart_out_of_range req w meta share tape' :
  slotsSized w ->
  sourceVerified req w ->
  hrsMeta w !! hrstOfSet req = Some meta ->
  DecryptOAEP (entropy w) (rsaKey w) (set_EncryptedSharePart req) = (inr share, tape') ->
  ~ inRange (sub64 (set_SourceID req) 1) (Z.to_nat (total w)) ->
  setEphemeralSecretPart req w = (Panic "index out of range", set_entropy tape' w).
Proof.
  intros Hw Hv Hm Hd Hi. apply verifySource_verified in Hv.
  rewrite (setEphemeralSecretPart_verified _ _ Hv).
  unfold mbind, M_bind, bind. rewrite (lookupOrDeal_present _ _ _ _ Hm).
  destruct (Hw _ _ Hm) as (arr & Ha & Hl).
  pose proof (storeSharePart_cases req meta w) as Hc. rewrite Hd in Hc.
  destruct (Hc arr Ha) as [_ Hout]. apply Hout. rewrite Hl. exact Hi.
Qed.

(** X14. An authenticated envelope whose share does not decrypt returns the
    error of the decryption without writing a slot, but the metadata that
    the call looked up or created for its HRST stays in [hrsMeta]. *)
Theorem setEphemeralSecretPart_decrypt_failure req w meta w1 e tape' :
  sourceVerified req w ->
  lookupOrDeal (hrstOfSet req) (dealRequestOfSet req) w = (Ok meta, w1) ->
  DecryptOAEP (entropy w1) (rsaKey w1) (set_EncryptedSharePart req) = (inl e, tape') ->
  setEphemeralSecretPart req w = (Err e, set_entropy tape' w1)
  /\ hrsMeta (setEphemeralSecretPart req w).2 !! hrstOfSet req = Some meta
  /\ peerArrays (setEphemeralSecretPart req w).2 = peerArrays w1.
Proof.
  intros Hv Hl Hd. apply verifySource_verified in Hv.
  rewrite (setEphemeralSecretPart_verified _ _ Hv).
  unfold mbind, M_bind, bind. rewrite Hl.
  pose proof (storeSharePart_cases req meta w1) as Hc. rewrite Hd in Hc.
  rewrite Hc. simpl. split; [reflexivity|].
  split; [exact (lookupOrDeal_installs _ _ _ _ _ Hl)|reflexivity].
Qed.

(** X15. When the HRST of the request has no metadata but the key that the
    dealer builds from the zero time has, [setEphemeralSecretPart] deals
    nothing: it binds the HRST of the request to that same metadata, with
    its secret, its dealt shares and its peer slots, and writes the share
    into those shared slots. *)
Theorem setEphemeralSecretPart_shares_zero_time_metadata req w meta arr share tape' :
  sourceVerified req w ->
  hrsMeta w !! hrstOfSet req = None ->
  hrsMeta w !! mkHRSTKey (set_Height req) (set_Round req) (set_Step req)
                         (UnixNano zeroTime) = Some meta ->
  peerArrays w !! Peers meta = Some arr ->
  DecryptOAEP (entropy w) (rsaKey w) (set_EncryptedSharePart req) = (inr share, tape') ->
  inRange (sub64 (set_SourceID req) 1) (length arr) ->
  exists w',
    setEphemeralSecretPart req w = (Ok tt, w')
    /\ hrsMeta w' = <[hrstOfSet req := meta]> (hrsMeta w)
    /\ length (peerArrays w') = length (peerArrays w)
    /\ peerArrays w' !! Peers meta
       = Some (<[Z.to_nat (sub64 (set_SourceID req) 1)
                 := mkPeerMetadata share (set_SourceEphemeralSecretPublicKey req)]> arr)
    /\ entropy w' = tape'.
Proof.
  intros Hv Hnone Hzero Ha Hd Hi. apply verifySource_verified in Hv.
  rewrite (setEphemeralSecretPart_verified _ _ Hv).
  unfold mbind, M_bind, bind. rewrite (lookupOrDeal_absent _ _ _ Hnone).
  rewrite (dealShares_present (dealRequestOfSet req) w meta Hzero).
  set (w1 := set_hrsMeta (<[hrstOfSet req := meta]> (hrsMeta w)) w).
  pose proof (storeSharePart_cases req meta w1) as Hc.
  change (entropy w1) with (entropy w) in Hc. change (rsaKey w1) with (rsaKey w) in Hc.
  rewrite Hd in Hc. destruct (Hc arr Ha) as [Hok _]. rewrite (Hok Hi).
  eexists. split; [reflexivity|]. simpl.
  split; [reflexivity|]. split; [apply length_insert|].
  split; [|reflexivity].
  apply list_lookup_insert_eq. apply lookup_lt_Some in Ha. exact Ha.
Qed.

(** X16. The source signature does not cover the HRST: an authenticated request
    stays authenticated when it is aimed at any other height, round, step
    and timestamp, and, where that HRST has metadata, its share is stored
    there. *)
Theorem setEphemeralSecretPart_accepts_retargeted req w height round step timestamp :
  sourceVerified req w ->
  sourceVerified (retarget req height round step timestamp) w
  /\ forall meta arr share tape',
       hrsMeta w !! mkHRSTKey height round step (UnixNano timestamp) = Some meta ->
       peerArrays w !! Peers meta = Some arr ->
       DecryptOAEP (entropy w) (rsaKey w) (set_EncryptedSharePart req)
       = (inr share, tape') ->
       inRange (sub64 (set_SourceID req) 1) (length arr) ->
       setEphemeralSecretPart (retarget req height round step timestamp) w
       = (Ok tt, withSlot meta arr (sub64 (set_SourceID req) 1) share
                   (set_SourceEphemeralSecretPublicKey req) (set_entropy tape' w)).
Proof.
  intros Hv.
  assert (sourceVerified (retarget req height round step timestamp) w) as Hv'.
  { destruct Hv as (sig & digestBytes & peer & H1 & H2 & H3 & H4).
    exists sig, digestBytes, peer. auto. }
  split; [exact Hv'|]. intros meta arr share tape' Hm Ha Hd Hi.
  apply verifySource_verified in Hv'.
  rewrite (setEphemeralSecretPart_verified _ _ Hv').
  unfold mbind, M_bind, bind.
  rewrite (lookupOrDeal_present (hrstOfSet (retarget req height round step timestamp))
             (dealRequestOfSet (retarget req height round step timestamp)) w meta Hm).
  pose proof (storeSharePart_cases (retarget req height round step timestamp) meta w) as Hc.
  simpl in Hc. rewrite Hd in Hc. destruct (Hc arr Ha) as [Hok _]. apply Hok, Hi.
Qed.

(** *** getEphemeralSecretPart *)

(** The body of [getEphemeralSecretPart] when it returns an envelope. *)
Lemma answerWithPart_inv req meta w part w' :
  answerWithPart req meta w = (Ok part, w') ->
  let own := sub64 (key_ID (key w)) 1 in
  let pub := ScalarMultiplyBase (Secret meta) in
  exists arr ourShare peer sharePart encrypted tape1 digestBytes sig tape2,
    DealtShares meta !! Z.to_nat own = Some ourShare
    /\ peerArrays w !! Peers meta = Some arr
    /\ inRange own (length arr)
    /\ peers w !! get_ID req = Some peer
    /\ inRange (sub64 (get_ID req) 1) (length (DealtShares meta))
    /\ DealtShares meta !! Z.to_nat (sub64 (get_ID req) 1) = Some sharePart
    /\ EncryptOAEP (entropy w) (peer_PublicKey peer) sharePart = (inr encrypted, tape1)
    /\ Marshal (mkSecretPart (key_ID (key w)) pub encrypted None 0) = inr digestBytes
    /\ SignPSS tape1 (rsaKey w) (Sum256 digestBytes) = (inr sig, tape2)
    /\ part = mkSecretPart (key_ID (key w)) pub encrypted (Some sig) (get_ID req)
    /\ w' = set_entropy tape2 (withSlot meta arr own ourShare pub w).
Proof.
  intros H own pub. unfold answerWithPart, withEntropy in H. unfold_monad.
  unfold fail, ret in H. cbn beta iota in H. fold own pub in H.
  destruct (index (DealtShares meta) own w) as [[ourShare| |] w0] eqn:Hi1;
    [|discriminate..].
  apply index_inv in Hi1. destruct Hi1 as (-> & _ & Hown).
  destruct (setPeerSlot meta own ourShare pub w) as [[[]| |] w1] eqn:Hs;
    [|discriminate..].
  apply setPeerSlot_inv in Hs. destruct Hs as (arr & Ha & Hr & ->).
  cbn [peers withSlot set_peerArrays] in H.
  destruct (peers w !! get_ID req) as [peer|] eqn:Hp; [|discriminate].
  destruct (index (DealtShares meta) (sub64 (get_ID req) 1) _)
    as [[sharePart| |] w2] eqn:Hi2; [|discriminate..].
  apply index_inv in Hi2. destruct Hi2 as (-> & Hr2 & Hshare).
  cbn [entropy withSlot set_peerArrays set_entropy fst snd] in H.
  destruct (EncryptOAEP (entropy w) (peer_PublicKey peer) sharePart)
    as [[e|encrypted] tape1] eqn:He; [discriminate|].
  cbn [fst snd key rsaKey entropy set_entropy withSlot set_peerArrays] in H.
  destruct (Marshal (mkSecretPart (key_ID (key w)) pub encrypted None 0))
    as [e|digestBytes] eqn:Hm; [discriminate|].
  cbn [fst snd key rsaKey entropy set_entropy withSlot set_peerArrays] in H.
  destruct (SignPSS tape1 (rsaKey w) (Sum256 digestBytes)) as [[e|sig] tape2] eqn:Hsig;
    [discriminate|].
  cbn [fst snd key rsaKey entropy set_entropy withSlot set_peerArrays] in H.
  injection H as <- <-.
  exists arr, ourShare, peer, sharePart, encrypted, tape1, digestBytes, sig, tape2.
  repeat (split; [assumption || reflexivity|]). reflexivity.
Qed.

Lemma lookupOrDeal_config hrst dealReq w :
  key (lookupOrDeal hrst dealReq w).2 = key w
  /\ peers (lookupOrDeal hrst dealReq w).2 = peers w
  /\ rsaKey (lookupOrDeal hrst dealReq w).2 = rsaKey w.
Proof.
  unfold lookupOrDeal, dealShares, rand_Read, makePeers, withEntropy. unfold_monad.
  destruct (hrsMeta w !! hrst); [auto|].
  destruct (hrsMeta w !! hrstOfGet dealReq); simpl; [auto|].
  case_bool_decide; simpl; auto.
Qed.

(** [getEphemeralSecretPart] when it returns an envelope: the metadata it
    used is the one its HRST has afterwards, and the body ran on the world
    the lookup left. *)
Lemma getEphemeralSecretPart_inv req w part w' :
  getEphemeralSecretPart req w = (Ok part, w') ->
  exists meta w1,
    hrsMeta w' !! hrstOfGet req = Some meta
    /\ hrsMeta w' = hrsMeta w1
    /\ hrsMeta w1 !! hrstOfGet req = Some meta
    /\ (forall m, hrsMeta w !! hrstOfGet req = Some m -> m = meta /\ w1 = w)
    /\ key w1 = key w /\ peers w1 = peers w /\ rsaKey w1 = rsaKey w
    /\ answerWithPart req meta w1 = (Ok part, w').
Proof.
  unfold getEphemeralSecretPart. unfold mbind, M_bind, bind. intros H.
  destruct (lookupOrDeal (hrstOfGet req) _ w) as [[meta| |] w1] eqn:Hl;
    [|discriminate..].
  exists meta, w1.
  pose proof (lookupOrDeal_installs _ _ _ _ _ Hl) as Hin.
  pose proof (keepsMeta_answerWithPart req meta w1) as Hk. rewrite H in Hk. simpl in Hk.
  pose proof (lookupOrDeal_config (hrstOfGet req)
                (mkGetRequest 0 (get_Height req) (get_Round req) (get_Step req)
                              (get_Timestamp req)) w) as Hc.
  rewrite Hl in Hc. simpl in Hc. destruct Hc as (Hc1 & Hc2 & Hc3).
  split; [rewrite Hk; exact Hin|]. split; [exact Hk|]. split; [exact Hin|].
  split.
  { intros m Hm. rewrite (lookupOrDeal_present _ _ _ _ Hm) in Hl.
    injection Hl as -> ->. auto. }
  auto.
Qed.

(** X17. The envelope [getEphemeralSecretPart] returns: it names this cosigner
    as its source and the requester as its destination, carries the
    base-point multiple of the secret of the HRST, the share dealt to the
    requester encrypted under the requester's configured key, and a
    signature by this cosigner's key over the hash of the serialised
    envelope as it was before the signature and the destination were
    filled in.  By then the cosigner's own slot holds its own share and
    that public key. *)
Theorem getEphemeralSecretPart_response req w part w' :
  getEphemeralSecretPart req w = (Ok part, w') ->
  exists meta peer share ourShare arr',
    hrsMeta w' !! hrstOfGet req = Some meta
    /\ SourceID part = key_ID (key w)
    /\ DestinationID part = get_ID req
    /\ SourceEphemeralSecretPublicKey part = ScalarMultiplyBase (Secret meta)
    /\ peers w !! get_ID req = Some peer
    /\ DealtShares meta !! Z.to_nat (sub64 (get_ID req) 1) = Some share
    /\ (exists tape tape1,
          EncryptOAEP tape (peer_PublicKey peer) share
          = (inr (EncryptedSharePart part), tape1))
    /\ (exists digestBytes sig tape1 tape2,
          Marshal (mkSecretPart (SourceID part) (SourceEphemeralSecretPublicKey part)
                                (EncryptedSharePart part) None 0) = inr digestBytes
          /\ SignPSS tape1 (rsaKey w) (Sum256 digestBytes) = (inr sig, tape2)
          /\ SourceSig part = Some sig)
    /\ DealtShares meta !! Z.to_nat (sub64 (key_ID (key w)) 1) = Some ourShare
    /\ peerArrays w' !! Peers meta = Some arr'
    /\ arr' !! Z.to_nat (sub64 (key_ID (key w)) 1)
       = Some (mkPeerMetadata ourShare (ScalarMultiplyBase (Secret meta))).
Proof.
  intros H. apply getEphemeralSecretPart_inv in H.
  destruct H as (meta & w1 & Hm & _ & _ & _ & Hk & Hp & Hr & Ha).
  apply answerWithPart_inv in Ha. cbn zeta in Ha.
  destruct Ha as (arr & ourShare & peer & sharePart & encrypted & tape1 & digestBytes
                  & sig & tape2 & Hown & Harr & Hin & Hpeer & _ & Hshare & Henc & Hmar
                  & Hsig & -> & ->).
  rewrite Hk, Hp, Hr in *.
  exists meta, peer, sharePart, ourShare,
    (<[Z.to_nat (sub64 (key_ID (key w)) 1)
       := mkPeerMetadata ourShare (ScalarMultiplyBase (Secret meta))]> arr).
  split; [exact Hm|]. split; [reflexivity|]. split; [reflexivity|].
  split; [reflexivity|]. split; [exact Hpeer|]. split; [exact Hshare|].
  split; [exists (entropy w1), tape1; exact Henc|].
  split; [exists digestBytes, sig, tape1, tape2; auto|].
  split; [exact Hown|]. simpl. split.
  - apply list_lookup_insert_eq. apply lookup_lt_Some in Harr. exact Harr.
  - apply list_lookup_insert_eq. destruct Hin. lia.
Qed.

(** X18. A second request for the same HRST, from whichever peer, is answered
    from the metadata of the first: the envelope carries the same
    ephemeral public key and [hrsMeta] does not change. *)
Theorem getEphemeralSecretPart_again req req' w part w1 part' w2 :
  getEphemeralSecretPart req w = (Ok part, w1) ->
  hrstOfGet req' = hrstOfGet req ->
  getEphemeralSecretPart req' w1 = (Ok part', w2) ->
  SourceEphemeralSecretPublicKey part' = SourceEphemeralSecretPublicKey part
  /\ hrsMeta w2 = hrsMeta w1.
Proof.
  intros H1 Heq H2.
  apply getEphemeralSecretPart_inv in H1.
  destruct H1 as (meta & w0 & Hm & _ & _ & _ & _ & _ & _ & Ha).
  apply getEphemeralSecretPart_inv in H2.
  destruct H2 as (meta' & w0' & Hm' & Hsame & _ & Hold & _ & _ & _ & Ha').
  rewrite Heq in Hold. destruct (Hold meta Hm) as [<- ->].
  apply answerWithPart_inv in Ha. cbn zeta in Ha.
  destruct Ha as (? & ? & ? & ? & ? & ? & ? & ? & ? & _ & _ & _ & _ & _ & _ & _ & _ & _
                  & -> & _).
  apply answerWithPart_inv in Ha'. cbn zeta in Ha'.
  destruct Ha' as (? & ? & ? & ? & ? & ? & ? & ? & ? & _ & _ & _ & _ & _ & _ & _ & _ & _
                   & -> & _).
  split; [reflexivity|exact Hsame].
Qed.

(** X19. A request from a peer that is not configured is refused with "unknown
    peer ID", but only after the cosigner has written its own share and
    public key into its slot of the metadata. *)
Theorem getEphemeralSecretPart_unknown_peer req w meta arr ourShare :
  hrsMeta w !! hrstOfGet req = Some meta ->
  peerArrays w !! Peers meta = Some arr ->
  DealtShares meta !! Z.to_nat (sub64 (key_ID (key w)) 1) = Some ourShare ->
  inRange (sub64 (key_ID (key w)) 1) (length (DealtShares meta)) ->
  inRange (sub64 (key_ID (key w)) 1) (length arr) ->
  peers w !! get_ID req = None ->
  getEphemeralSecretPart req w
  = (Err UnknownPeer,
     withSlot meta arr (sub64 (key_ID (key w)) 1) ourShare
              (ScalarMultiplyBase (Secret meta)) w).
Proof.
  intros Hm Ha Hown Hr1 Hr2 Hp.
  unfold getEphemeralSecretPart. unfold mbind, M_bind, bind.
  rewrite (lookupOrDeal_present _ _ _ _ Hm).
  unfold answerWithPart. unfold_monad. cbn beta iota.
  destruct (index_in_range (DealtShares meta) (sub64 (key_ID (key w)) 1) w Hr1)
    as (a & Hl & ->).
  assert (a = ourShare) as -> by congruence.
  rewrite (setPeerSlot_in_range meta arr) by assumption.
  cbn [peers withSlot set_peerArrays]. rewrite Hp. reflexivity.
Qed.

(** X20. The two slice indices of [getEphemeralSecretPart] are not checked
    against the configuration.  When this cosigner's own ID does not
    index a dealt share the call panics with nothing written; when the
    requester is configured but its ID does not index a dealt share, the
    call panics after the own slot has been written. *)
Theorem getEphemeralSecretPart_out_of_range req w meta :
  hrsMeta w !! hrstOfGet req = Some meta ->
  (~ inRange (sub64 (key_ID (key w)) 1) (length (DealtShares meta)) ->
     getEphemeralSecretPart req w = (Panic "index out of range", w))
  /\ (forall arr ourShare peer,
        peerArrays w !! Peers meta = Some arr ->
        DealtShares meta !! Z.to_nat (sub64 (key_ID (key w)) 1) = Some ourShare ->
        inRange (sub64 (key_ID (key w)) 1) (length (DealtShares meta)) ->
        inRange (sub64 (key_ID (key w)) 1) (length arr) ->
        peers w !! get_ID req = Some peer ->
        ~ inRange (sub64 (get_ID req) 1) (length (DealtShares meta)) ->
        getEphemeralSecretPart req w
        = (Panic "index out of range",
           withSlot meta arr (sub64 (key_ID (key w)) 1) ourShare
                    (ScalarMultiplyBase (Secret meta)) w)).
Proof.
  intros Hm. split.
  - intros Hout. unfold getEphemeralSecretPart. unfold mbind, M_bind, bind.
    rewrite (lookupOrDeal_present _ _ _ _ Hm).
    unfold answerWithPart. unfold_monad. cbn beta iota.
    rewrite (index_out_of_range _ _ w Hout). reflexivity.
  - intros arr ourShare peer Ha Hown Hr1 Hr2 Hp Hout.
    unfold getEphemeralSecretPart. unfold mbind, M_bind, bind.
    rewrite (lookupOrDeal_present _ _ _ _ Hm).
    unfold answerWithPart. unfold_monad. cbn beta iota.
    destruct (index_in_range (DealtShares meta) (sub64 (key_ID (key w)) 1) w Hr1)
      as (a & Hl & ->).
    assert (a = ourShare) as -> by congruence.
    rewrite (setPeerSlot_in_range meta arr) by assumption.
    cbn [peers withSlot set_peerArrays]. rewrite Hp.
    rewrite (index_out_of_range _ _ _ Hout). reflexivity.
Qed.

(** X21. An envelope that one cosigner's [getEphemeralSecretPart] returns
    passes the source check of [setEphemeralSecretPart] at every cosigner
    that has the sender's public key configured under the sender's ID,
    provided the signature scheme verifies what it signs: the bytes hashed
    on both sides are the same. *)
Theorem envelope_passes_source_check reqG wA part wA' wB peerA
    height round step timestamp :
  (forall tape priv digest sig tape',
     SignPSS tape priv digest = (inr sig, tape') ->
     VerifyPSS (rsa_Public priv) digest sig = None) ->
  getEphemeralSecretPart reqG wA = (Ok part, wA') ->
  peers wB !! key_ID (key wA) = Some peerA ->
  peer_PublicKey peerA = rsa_Public (rsaKey wA) ->
  sourceVerified (requestOfPart part height round step timestamp) wB.
Proof.
  intros Hpss H HpA Hkey. apply getEphemeralSecretPart_inv in H.
  destruct H as (meta & w1 & _ & _ & _ & _ & Hk & _ & Hr & Ha).
  apply answerWithPart_inv in Ha. cbn zeta in Ha.
  destruct Ha as (arr & ourShare & peer & sharePart & encrypted & tape1 & digestBytes
                  & sig & tape2 & _ & _ & _ & _ & _ & _ & _ & Hmar & Hsig & -> & _).
  rewrite Hk, Hr in *.
  exists sig, digestBytes, peerA. unfold digestMsgOf. simpl.
  split; [reflexivity|]. split; [exact Hmar|]. split; [exact HpA|].
  rewrite Hkey. apply (Hpss _ _ _ _ _ Hsig).
Qed.

(** X22. The share exchange end to end.  When the signature scheme verifies
    what it signs and decryption undoes encryption, the envelope cosigner
    A returns for a requester, delivered to the cosigner B whose key A has
    configured for that requester, is accepted by B, and B's slot for A
    then holds the share A dealt to the requester together with A's
    ephemeral public key. *)
Theorem share_round_trip reqG wA part wA' wB peerA peerB
    height round step timestamp metaB arrB :
  (forall tape priv digest sig tape',
     SignPSS tape priv digest = (inr sig, tape') ->
     VerifyPSS (rsa_Public priv) digest sig = None) ->
  (forall tapeE priv msg ciphertext tape1 tapeD,
     EncryptOAEP tapeE (rsa_Public priv) msg = (inr ciphertext, tape1) ->
     exists tape2, DecryptOAEP tapeD priv ciphertext = (inr msg, tape2)) ->
  getEphemeralSecretPart reqG wA = (Ok part, wA') ->
  peers wB !! key_ID (key wA) = Some peerA ->
  peer_PublicKey peerA = rsa_Public (rsaKey wA) ->
  peers wA !! get_ID reqG = Some peerB ->
  peer_PublicKey peerB = rsa_Public (rsaKey wB) ->
  hrsMeta wB !! mkHRSTKey height round step (UnixNano timestamp) = Some metaB ->
  peerArrays wB !! Peers metaB = Some arrB ->
  inRange (sub64 (key_ID (key wA)) 1) (length arrB) ->
  exists metaA share wB',
    hrsMeta wA' !! hrstOfGet reqG = Some metaA
    /\ DealtShares metaA !! Z.to_nat (sub64 (get_ID reqG) 1) = Some share
    /\ setEphemeralSecretPart (requestOfPart part height round step timestamp) wB
       = (Ok tt, wB')
    /\ peerArrays wB' !! Peers metaB
       = Some (<[Z.to_nat (sub64 (key_ID (key wA)) 1)
                 := mkPeerMetadata share (ScalarMultiplyBase (Secret metaA))]> arrB).
Proof.
  intros Hpss Hoaep H HpA HkeyA HpB HkeyB HmB HaB Hin.
  apply getEphemeralSecretPart_inv in H.
  destruct H as (meta & w1 & HmA & _ & _ & _ & Hk & Hp & Hr & Ha).
  apply answerWithPart_inv in Ha. cbn zeta in Ha.
  destruct Ha as (arr & ourShare & peer & sharePart & encrypted & tape1 & digestBytes
                  & sig & tape2 & _ & _ & _ & Hpeer & _ & Hshare & Henc & Hmar & Hsig
                  & -> & _).
  rewrite Hk, Hp, Hr in *.
  assert (peer = peerB) as -> by congruence. rewrite HkeyB in Henc.
  destruct (Hoaep _ _ _ _ _ (entropy wB) Henc) as (tape3 & Hdec).
  exists meta, sharePart.
  set (reqS := requestOfPart
                 (mkSecretPart (key_ID (key wA)) (ScalarMultiplyBase (Secret meta))
                               encrypted (Some sig) (get_ID reqG))
                 height round step timestamp).
  assert ((verifySource reqS wB).1 = Ok tt) as Hv.
  { apply verifySource_verified. exists sig, digestBytes, peerA.
    split; [reflexivity|]. split; [exact Hmar|]. split; [exact HpA|].
    rewrite HkeyA. apply (Hpss _ _ _ _ _ Hsig). }
  rewrite (setEphemeralSecretPart_verified _ _ Hv).
  unfold mbind, M_bind, bind.
  rewrite (lookupOrDeal_present (hrstOfSet reqS) (dealRequestOfSet reqS) wB metaB HmB).
  pose proof (storeSharePart_cases reqS metaB wB) as Hc. simpl in Hc.
  rewrite Hdec in Hc. destruct (Hc arrB HaB) as [Hok _]. rewrite (Hok Hin).
  eexists. split; [exact HmA|]. split; [exact Hshare|]. split; [reflexivity|].
  simpl. apply list_lookup_insert_eq. apply lookup_lt_Some in HaB. exact HaB.
Qed.

End MoreShareFacts.

(** ** The further properties on concrete inputs *)

Module SampleMore.
Import Sample Sample2.
#[local] Existing Instance toyPrimitives.
#[local] Existing Instance toyPkg.

Lemma toy_pss_verifies tape priv digest sig tape' :
  SignPSS tape priv digest = (inr sig, tape') ->
  VerifyPSS (rsa_Public priv) digest sig = None.
Proof.
  simpl. intros [= <- _]. rewrite bool_decide_eq_true_2 by reflexivity. reflexivity.
Defined.

Lemma toy_oaep_decrypts tapeE priv msg ciphertext tape1 tapeD :
  EncryptOAEP tapeE (rsa_Public priv) msg = (inr ciphertext, tape1) ->
  exists tape2, DecryptOAEP tapeD priv ciphertext = (inr msg, tape2).
Proof.
  simpl. intros [= <- _]. exists tapeD.
  rewrite bool_decide_eq_true_2 by reflexivity. reflexivity.
Defined.

Lemma run_as {A} (m : M A) (w : World) (a : A) (w' : World) :
  result m w = Ok a -> after m w = w' -> m w = (Ok a, w').
Proof. intros <- <-. apply SampleFacts.run_eq. Defined.

Lemma slotsSized_dealt10 : slotsSized dealt10.
Proof.
  apply keepsSized_getEphemeralSecretPart.
  intros k meta Hk.
  change (hrsMeta world0) with (∅ : gmap HRSTKey HrsMetadata) in Hk.
  rewrite lookup_empty in Hk. discriminate Hk.
Defined.

Lemma sign_without_metadata_witness :
  passesHRS signRequest10_time8 dealt10 hrst10_8
  /\ is_Some (hrsMeta dealt10 !! hrst10)
  /\ sign signRequest10_time8 dealt10 = (Err NoMetadataForHRS, dealt10).
Proof.
  assert (passesHRS signRequest10_time8 dealt10 hrst10_8) as Hp.
  { split; [vm_compute; reflexivity|]. exists false.
    split; [vm_compute; reflexivity|]. discriminate. }
  split; [exact Hp|]. split.
  { exists meta10. vm_compute; reflexivity. }
  apply (sign_without_metadata _ _ _ Hp). vm_compute; reflexivity.
Defined.

Lemma sign_failure_keeps_metadata_witness :
  result (sign signRequest10_step1) signed10_dealt5 = Err RegressionError
  /\ hrsMeta (after (sign signRequest10_step1) signed10_dealt5) = hrsMeta signed10_dealt5.
Proof.
  split; [vm_compute; reflexivity|].
  apply (sign_failure_keeps_metadata signRequest10_step1 signed10_dealt5 _ _
           (SampleFacts.run_eq _ _)).
  intros res Hr. vm_compute in Hr. discriminate Hr.
Defined.

Lemma sign_keeps_not_lower_witness :
  hrsMeta (sign signRequest10 dealt5and10).2 ⊆ hrsMeta dealt5and10
  /\ hrsMeta (sign signRequest10 dealt5and10).2 !! hrst10
     = hrsMeta dealt5and10 !! hrst10.
Proof.
  destruct (sign_keeps_not_lower signRequest10 dealt5and10 hrst10) as [Hsub Hkeep].
  - vm_compute; reflexivity.
  - split; [exact Hsub|]. apply Hkeep. vm_compute; reflexivity.
Defined.

Lemma hasShares_dealt9 : hasShares signed10_dealt9 hrst10_9 slots9.
Proof. exists meta9. split; vm_compute; reflexivity. Defined.

Lemma sign_same_hrs_error_is_success_witness :
  atRecorded hrst10_9 (lastSignState signed10_dealt9)
  /\ exists w',
       sign (pkg := strictSave) signRequest10_time9 signed10_dealt9
       = (Ok (mkCosignerSignResponse (ephemeralPublicOf slots9)
                (signatureOf signRequest10_time9 signed10_dealt9 slots9)), w')
       /\ ss_SignBytes (lastSignState w') = signBytes10
       /\ hrsMeta w' = deleteLower hrst10_9 (hrsMeta signed10_dealt9).
Proof.
  split.
  { split; [vm_compute; reflexivity|]. split; vm_compute; reflexivity. }
  destruct (sign_same_hrs_error_is_success (pkg := strictSave) signRequest10_time9
              signed10_dealt9 hrst10_9 slots9
              (setEphemeralPublic (ephemeralPublicOf slots9)
                                  (lastSignState signed10_dealt9))
              (stateFile signed10_dealt9) SameHRSError)
    as (w' & Hs & Hl & _ & Hm).
  - split; [vm_compute; reflexivity|]. exists true.
    split; [vm_compute; reflexivity|]. intros _.
    split; [vm_compute; discriminate|vm_compute; reflexivity].
  - exact hasShares_dealt9.
  - vm_compute; reflexivity.
  - vm_compute; reflexivity.
  - vm_compute; reflexivity.
  - reflexivity.
  - exists w'. split; [exact Hs|]. split; [|exact Hm].
    rewrite Hl. vm_compute; reflexivity.
Defined.

Lemma sign_success_cases_witness :
  exists hrst, UnpackHRST (SignBytes signRequest10) = inr hrst /\
    passesHRS signRequest10 dealt10 hrst /\
    exists arr, hasShares dealt10 hrst arr
      /\ signCalls signed10 = signCalls dealt10 ++ [callOf signRequest10 dealt10 arr].
Proof.
  destruct (sign_success_cases signRequest10 dealt10
              (mkCosignerSignResponse (ephemeralPublicOf slots10)
                                      (signatureOf signRequest10 dealt10 slots10))
              signed10) as (hrst & Hu & [(Hr & _)|(Hp & arr & Hh & _ & Hc)]).
  - apply run_as; [vm_compute; reflexivity|reflexivity].
  - exfalso. destruct Hr as [Hc _]. vm_compute in Hu. injection Hu as <-.
    vm_compute in Hc. discriminate Hc.
  - exists hrst. split; [exact Hu|]. split; [exact Hp|]. exists arr. auto.
Defined.


Lemma slotsSized_invariant_witness :
  slotsSized world0 /\ slotsSized dealt10 /\ slotsSized signed10.
Proof.
  destruct (slotsSized_invariant world0) as [Hempty Hstep].
  assert (slotsSized world0) as H0 by (apply Hempty; reflexivity).
  destruct (Hstep H0) as (_ & Hget & _ & _).
  assert (slotsSized dealt10) as H1 by exact (Hget getRequest10).
  split; [exact H0|]. split; [exact H1|].
  destruct (slotsSized_invariant dealt10) as [_ Hstep1].
  destruct (Hstep1 H1) as (_ & _ & _ & Hsign). exact (Hsign signRequest10).
Defined.

Lemma sign_no_panic_sized_witness :
  slotsSized dealt10
  /\ (sign signRequest10 dealt10).1 <> Panic "invalid memory address".
Proof.
  split; [exact slotsSized_dealt10|].
  apply sign_no_panic_sized. exact slotsSized_dealt10.
Defined.

Lemma inRange_1_2 : inRange (sub64 2 1) 2.
Proof. split; vm_compute; [discriminate|reflexivity]. Defined.

Lemma setEphemeralSecretPart_stores_witness :
  hrsMeta dealt10 !! hrstOfSet setRequest10 = Some meta10
  /\ populated slots10 = 1%nat
  /\ exists w' arr',
       setEphemeralSecretPart setRequest10 dealt10 = (Ok tt, w')
       /\ peerArrays w' !! Peers meta10 = Some arr'
       /\ populated arr' = 2%nat
       /\ hrsMeta w' = hrsMeta dealt10.
Proof.
  assert (hrsMeta dealt10 !! hrstOfSet setRequest10 = Some meta10) as Hm
    by (vm_compute; reflexivity).
  split; [exact Hm|]. split; [vm_compute; reflexivity|].
  destruct (DecryptOAEP (entropy dealt10) (rsaKey dealt10)
              (set_EncryptedSharePart setRequest10)) as [[e|share] tape'] eqn:Hd.
  { vm_compute in Hd. discriminate Hd. }
  destruct (setEphemeralSecretPart_stores setRequest10 dealt10 meta10 slots10 share tape')
    as (w' & Hs & Ha & _ & _ & _ & Hk & _).
  - apply verifySource_verified. vm_compute; reflexivity.
  - exact Hm.
  - vm_compute; reflexivity.
  - exact Hd.
  - exact inRange_1_2.
  - exists w'. eexists. split; [exact Hs|]. split; [exact Ha|]. split; [|exact Hk].
    vm_compute in Hd. injection Hd as <- _. vm_compute; reflexivity.
Defined.

Lemma slotsSized_dealt10_peer3 : slotsSized dealt10_peer3.
Proof.
  apply (slotsSized_same dealt10); [vm_compute; reflexivity..|].
  exact slotsSized_dealt10.
Defined.

Lemma setEphemeralSecretPart_out_of_range_witness :
  set_SourceID setRequest10_peer3 = 3
  /\ total dealt10_peer3 = 2
  /\ sourceVerified setRequest10_peer3 dealt10_peer3
  /\ result (setEphemeralSecretPart setRequest10_peer3) dealt10_peer3
     = Panic "index out of range".
Proof.
  assert (sourceVerified setRequest10_peer3 dealt10_peer3) as Hv.
  { apply verifySource_verified. vm_compute; reflexivity. }
  split; [vm_compute; reflexivity|]. split; [vm_compute; reflexivity|].
  split; [exact Hv|].
  destruct (DecryptOAEP (entropy dealt10_peer3) (rsaKey dealt10_peer3)
              (set_EncryptedSharePart setRequest10_peer3)) as [[e|share] tape'] eqn:Hd.
  { vm_compute in Hd. discriminate Hd. }
  unfold result.
  rewrite (setEphemeralSecretPart_out_of_range setRequest10_peer3 dealt10_peer3 meta10
             share tape' slotsSized_dealt10_peer3 Hv).
  - reflexivity.
  - vm_compute; reflexivity.
  - exact Hd.
  - intros [_ Hhi]. vm_compute in Hhi. discriminate Hhi.
Defined.

Lemma setEphemeralSecretPart_decrypt_failure_witness :
  hrsMeta world0 !! hrstOfSet setRequest10_misaddressed = None
  /\ result (setEphemeralSecretPart setRequest10_misaddressed) world0
     = Err (LibError "crypto/rsa: decryption error")
  /\ is_Some (hrsMeta (setEphemeralSecretPart setRequest10_misaddressed world0).2
                !! hrstOfSet setRequest10_misaddressed).
Proof.
  split; [reflexivity|].
  assert (sourceVerified setRequest10_misaddressed world0) as Hv.
  { apply verifySource_verified. vm_compute; reflexivity. }
  pose proof (SampleFacts.run_eq
                (lookupOrDeal (hrstOfSet setRequest10_misaddressed)
                              (dealRequestOfSet setRequest10_misaddressed)) world0) as Hl.
  destruct (result (lookupOrDeal (hrstOfSet setRequest10_misaddressed)
                                 (dealRequestOfSet setRequest10_misaddressed)) world0)
    as [meta|e|msg] eqn:Hr; [|vm_compute in Hr; discriminate Hr..].
  set (w1 := after (lookupOrDeal (hrstOfSet setRequest10_misaddressed)
                                 (dealRequestOfSet setRequest10_misaddressed)) world0) in *.
  destruct (DecryptOAEP (entropy w1) (rsaKey w1)
              (set_EncryptedSharePart setRequest10_misaddressed))
    as [[e|share] tape'] eqn:Hd.
  2:{ vm_compute in Hd. discriminate Hd. }
  destruct (setEphemeralSecretPart_decrypt_failure setRequest10_misaddressed world0 meta
              w1 e tape' Hv Hl Hd) as (Hs & Hk & _).
  split.
  - unfold result. rewrite Hs. simpl. vm_compute in Hd. injection Hd as <- _. reflexivity.
  - rewrite Hk. eexists; reflexivity.
Defined.

Lemma setEphemeralSecretPart_shares_zero_time_metadata_witness :
  hrsMeta received10 !! hrst10 = Some metaZero
  /\ exists w',
       setEphemeralSecretPart (retarget setRequest10 10 0 2 time8) received10 = (Ok tt, w')
       /\ hrsMeta w' !! hrst10_8 = Some metaZero
       /\ hrsMeta w' !! hrst10 = Some metaZero
       /\ length (peerArrays w') = 1%nat.
Proof.
  assert (hrsMeta received10 !! hrst10 = Some metaZero) as H7 by (vm_compute; reflexivity).
  split; [exact H7|].
  destruct (DecryptOAEP (entropy received10) (rsaKey received10)
              (set_EncryptedSharePart (retarget setRequest10 10 0 2 time8)))
    as [[e|share] tape'] eqn:Hd.
  { vm_compute in Hd. discriminate Hd. }
  destruct (setEphemeralSecretPart_shares_zero_time_metadata
              (retarget setRequest10 10 0 2 time8) received10 metaZero slotsZero share tape')
    as (w' & Hs & Hm & Hlen & _).
  - apply verifySource_verified. vm_compute; reflexivity.
  - vm_compute; reflexivity.
  - vm_compute; reflexivity.
  - vm_compute; reflexivity.
  - exact Hd.
  - change (length slotsZero) with 2%nat. exact inRange_1_2.
  - exists w'. split; [exact Hs|]. rewrite Hm, Hlen.
    split; [apply lookup_insert_eq|]. split; [|vm_compute; reflexivity].
    rewrite lookup_insert_ne; [exact H7|]. vm_compute. discriminate.
Defined.

Lemma setEphemeralSecretPart_accepts_retargeted_witness :
  sourceVerified setRequest10 dealt5and10
  /\ sourceVerified (retarget setRequest10 5 0 2 time3) dealt5and10
  /\ result (setEphemeralSecretPart (retarget setRequest10 5 0 2 time3)) dealt5and10
     = Ok tt.
Proof.
  assert (sourceVerified setRequest10 dealt5and10) as Hv.
  { apply verifySource_verified. vm_compute; reflexivity. }
  destruct (setEphemeralSecretPart_accepts_retargeted setRequest10 dealt5and10 5 0 2 time3 Hv)
    as [Hv' Hstore].
  split; [exact Hv|]. split; [exact Hv'|].
  destruct (DecryptOAEP (entropy dealt5and10) (rsaKey dealt5and10)
              (set_EncryptedSharePart setRequest10)) as [[e|share] tape'] eqn:Hd.
  { vm_compute in Hd. discriminate Hd. }
  unfold result. rewrite (Hstore meta5 slots5 share tape').
  - reflexivity.
  - vm_compute; reflexivity.
  - vm_compute; reflexivity.
  - reflexivity.
  - change (length slots5) with 2%nat. exact inRange_1_2.
Defined.

Lemma answered_part10 :
  getEphemeralSecretPart (mkGetRequest 1 10 0 2 time7) world0_peer2
  = (Ok part10, answered10_peer2).
Proof. apply run_as; [vm_compute; reflexivity|reflexivity]. Defined.

Lemma getEphemeralSecretPart_response_witness :
  SourceID part10 = 2 /\ DestinationID part10 = 1
  /\ exists meta ourShare arr',
       hrsMeta answered10_peer2 !! hrst10 = Some meta
       /\ SourceEphemeralSecretPublicKey part10 = ScalarMultiplyBase (Secret meta)
       /\ peerArrays answered10_peer2 !! Peers meta = Some arr'
       /\ arr' !! 1%nat = Some (mkPeerMetadata ourShare (ScalarMultiplyBase (Secret meta))).
Proof.
  destruct (getEphemeralSecretPart_response _ _ _ _ answered_part10)
    as (meta & peer & share & ourShare & arr' & Hm & Hs & Hd & Hpk & _ & _ & _ & _ & _
        & Ha & Hslot).
  split; [exact Hs|]. split; [exact Hd|].
  exists meta, ourShare, arr'. auto.
Defined.

Lemma getEphemeralSecretPart_again_witness :
  exists part' w2,
    getEphemeralSecretPart (mkGetRequest 2 10 0 2 time7) answered10_peer2 = (Ok part', w2)
    /\ SourceEphemeralSecretPublicKey part' = SourceEphemeralSecretPublicKey part10
    /\ hrsMeta w2 = hrsMeta answered10_peer2.
Proof.
  pose proof (SampleFacts.run_eq
                (getEphemeralSecretPart (mkGetRequest 2 10 0 2 time7)) answered10_peer2)
    as H2.
  destruct (result (getEphemeralSecretPart (mkGetRequest 2 10 0 2 time7)) answered10_peer2)
    as [part'|e|msg] eqn:Hr; [|vm_compute in Hr; discriminate Hr..].
  eexists part', _. split; [exact H2|].
  exact (getEphemeralSecretPart_again (mkGetRequest 1 10 0 2 time7)
           (mkGetRequest 2 10 0 2 time7) _ _ _ _ _ answered_part10 eq_refl H2).
Defined.

Lemma inRange_0_2 : inRange (sub64 1 1) 2.
Proof. split; vm_compute; [discriminate|reflexivity]. Defined.

Lemma getEphemeralSecretPart_unknown_peer_witness :
  peers dealt10 !! 9 = None
  /\ result (getEphemeralSecretPart (mkGetRequest 9 10 0 2 time7)) dealt10
     = Err UnknownPeer
  /\ hrsMeta (after (getEphemeralSecretPart (mkGetRequest 9 10 0 2 time7)) dealt10)
     = hrsMeta dealt10.
Proof.
  assert (peers dealt10 !! 9 = None) as Hp by (vm_compute; reflexivity).
  split; [exact Hp|].
  unfold result, after.
  rewrite (getEphemeralSecretPart_unknown_peer (mkGetRequest 9 10 0 2 time7) dealt10
             meta10 slots10 (default [] (DealtShares meta10 !! 0%nat))).
  - split; [reflexivity|vm_compute; reflexivity].
  - vm_compute; reflexivity.
  - vm_compute; reflexivity.
  - vm_compute; reflexivity.
  - change (length (DealtShares meta10)) with 2%nat. exact inRange_0_2.
  - change (length slots10) with 2%nat. exact inRange_0_2.
  - exact Hp.
Defined.

Lemma getEphemeralSecretPart_out_of_range_witness :
  key_ID (key dealt10_id5) = 5
  /\ getEphemeralSecretPart getRequest10 dealt10_id5
     = (Panic "index out of range", dealt10_id5)
  /\ is_Some (peers dealt10_peer3 !! 3)
  /\ result (getEphemeralSecretPart (mkGetRequest 3 10 0 2 time7)) dealt10_peer3
     = Panic "index out of range".
Proof.
  split; [reflexivity|]. split; [|split].
  - apply (proj1 (getEphemeralSecretPart_out_of_range getRequest10 dealt10_id5 meta10
                    ltac:(vm_compute; reflexivity))).
    intros [_ Hhi]. vm_compute in Hhi. discriminate Hhi.
  - eexists. vm_compute; reflexivity.
  - unfold result.
    rewrite (proj2 (getEphemeralSecretPart_out_of_range (mkGetRequest 3 10 0 2 time7)
                      dealt10_peer3 meta10 ltac:(vm_compute; reflexivity))
               slots10 (default [] (DealtShares meta10 !! 0%nat))
               (mkCosignerPeer 3 (rsa_Public key3))).
    + reflexivity.
    + vm_compute; reflexivity.
    + vm_compute; reflexivity.
    + change (length (DealtShares meta10)) with 2%nat. exact inRange_0_2.
    + change (length slots10) with 2%nat. exact inRange_0_2.
    + vm_compute; reflexivity.
    + intros [_ Hhi]. vm_compute in Hhi. discriminate Hhi.
Defined.

Lemma envelope_passes_source_check_witness :
  sourceVerified (requestOfPart part10 10 0 2 time7) world0
  /\ sourceVerified (requestOfPart part10 99 0 3 time3) world0.
Proof.
  split;
    apply (envelope_passes_source_check (mkGetRequest 1 10 0 2 time7) world0_peer2
             part10 answered10_peer2 world0 (mkCosignerPeer 2 (rsa_Public key2)));
    first [exact toy_pss_verifies | exact answered_part10 | reflexivity].
Defined.

Lemma share_round_trip_witness :
  exists metaA share wB',
    hrsMeta answered10_peer2 !! hrst10 = Some metaA
    /\ DealtShares metaA !! 0%nat = Some share
    /\ setEphemeralSecretPart (requestOfPart part10 10 0 2 time7) dealt10 = (Ok tt, wB')
    /\ peerArrays wB' !! Peers meta10
       = Some (<[1%nat := mkPeerMetadata share (ScalarMultiplyBase (Secret metaA))]>
                 slots10).
Proof.
  destruct (share_round_trip (mkGetRequest 1 10 0 2 time7) world0_peer2 part10
              answered10_peer2 dealt10 (mkCosignerPeer 2 (rsa_Public key2))
              (mkCosignerPeer 1 (rsa_Public key1)) 10 0 2 time7 meta10 slots10)
    as (metaA & share & wB' & H1 & H2 & H3 & H4).
  - exact toy_pss_verifies.
  - exact toy_oaep_decrypts.
  - exact answered_part10.
  - vm_compute; reflexivity.
  - reflexivity.
  - reflexivity.
  - vm_compute; reflexivity.
  - vm_compute; reflexivity.
  - vm_compute; reflexivity.
  - change (length slots10) with 2%nat. exact inRange_1_2.
  - exists metaA, share, wB'. auto.
Defined.

End SampleMore.
